(** * NAT classification and path-quality probing of the STUN client

    A shallow embedding of the [StunClient] class (latest revision of
    [stunClient.ts]: the one with the IPv4/IPv6 x UDP/TCP matrix and the
    speed test), and the properties of it that the design document states.

    Conventions.
    - JavaScript strings are [string]; [===] on strings is [String.eqb].
    - JavaScript integers (ports, counters, millisecond clocks) are [Z].
    - Non-integer numbers (packet loss, throughput) are exact rationals [Q];
      IEEE rounding of the intermediate quotient is not modelled.
    - [T | null] is [option T].
    - A promise is the state of its closure variables together with the
      events the browser delivers to its handlers; the value it resolves to
      is read off the final state. *)

From Stdlib Require Import Bool Ascii String List ZArith QArith Qround Qabs Lia Lqa.
From Stdlib Require Import Permutation Sorted.
Import ListNotations.

Local Open Scope string_scope.
Local Open Scope Z_scope.

(** ** JavaScript string primitives used by the client *)

Module JS.

(** [s.includes(sub)] *)
Fixpoint includes (s sub : string) : bool :=
  if String.prefix sub s then true
  else match s with
       | EmptyString => false
       | String _ s' => includes s' sub
       end.

(** [s.startsWith(pre)] *)
Definition startsWith (s pre : string) : bool := String.prefix pre s.

(** [s.split(sep)] for a one-character separator. *)
Fixpoint split (sep : ascii) (s : string) : list string :=
  match s with
  | EmptyString => [EmptyString]
  | String c s' =>
      if Ascii.eqb c sep then EmptyString :: split sep s'
      else match split sep s' with
           | h :: t => String c h :: t
           | [] => [String c EmptyString]
           end
  end.

Definition isSpace (c : ascii) : bool :=
  let n := nat_of_ascii c in
  (Nat.eqb n 32 || (Nat.leb 9 n && Nat.leb n 13))%bool.

Definition digit (c : ascii) : option Z :=
  let n := Z.of_nat (nat_of_ascii c) in
  if (48 <=? n) && (n <=? 57) then Some (n - 48) else None.

Fixpoint skipSpaces (s : string) : string :=
  match s with
  | String c s' => if isSpace c then skipSpaces s' else s
  | EmptyString => s
  end.

(** The longest digit prefix, read in base ten; [None] when it is empty. *)
Fixpoint digits (acc : option Z) (s : string) : option Z :=
  match s with
  | String c s' =>
      match digit c with
      | Some d => digits (Some (10 * match acc with Some a => a | None => 0 end + d)) s'
      | None => acc
      end
  | EmptyString => acc
  end.

(** [parseInt(s, 10)]; [None] is [NaN].  Leading white space is the ASCII
    one; the value is exact (no rounding above 2^53). *)
Definition parseInt (s : string) : option Z :=
  match skipSpaces s with
  | String "-" s' => option_map Z.opp (digits None s')
  | String "+" s' => digits None s'
  | s' => digits None s'
  end.

(** [Math.round]: the nearest integer, halves upwards. *)
Definition round (q : Q) : Z := Qfloor (q + (1 # 2)).

End JS.

(** ** Data model *)

Record StunServer := {
  url : string;
  host : string;
  server_port : Z;
  name : string
}.

(** The roster the class is constructed with. *)
Definition stunServers : list StunServer :=
  [ {| url := "stun:stun.miwifi.com:3478"; host := "stun.miwifi.com";
       server_port := 3478; name := "stun.miwifi.com" |};
    {| url := "stun:stun.l.google.com:19302"; host := "stun.l.google.com";
       server_port := 19302; name := "stun.l.google.com" |} ].

Inductive Protocol := UDP | TCP.
Inductive IpVersion := IPv4 | IPv6.

(** [{ ip; port }], what one probe stores in one slot. *)
Record Endpoint := { ep_ip : string; ep_port : Z }.

(** [{ ip; port; server }], an element of [NATTypeResult.mappedAddresses]. *)
Record Address := { ip : string; port : Z; server : string }.

Record NATTypeResult := {
  type : string;
  mappedAddresses : list Address
}.

(** The labels the classifier produces, under the names of the design
    document's category enumeration. *)
Definition EndpointIndependentMapping : string := "Full Cone or Restricted Cone".
Definition PortRestricted : string := "Restricted Cone".
Definition EndpointDependentMapping : string := "Symmetric NAT".
Definition Indeterminate : string := "Unknown".

(** ** The classifier: [detectNATTypeFromAddresses] *)

Definition allSameIP (addresses : list Address) (firstIP : string) : bool :=
  forallb (fun addr => String.eqb (ip addr) firstIP) addresses.

Definition allSamePort (addresses : list Address) (firstPort : Z) : bool :=
  forallb (fun addr => Z.eqb (port addr) firstPort) addresses.

(** [servers] is [this.stunServers]; [protocol] and [ipVersion] only reach
    the log lines. *)
Definition detectNATTypeFromAddresses (servers : list StunServer)
    (addresses : list Address) (protocol : Protocol) (ipVersion : IpVersion)
  : option NATTypeResult :=
  match addresses with
  | [] => None
  | first :: _ =>
      if negb (allSameIP addresses (ip first)) then
        Some {| type := "Unknown"; mappedAddresses := addresses |}
      else
        let natType :=
          if allSamePort addresses (port first) then
            if Nat.eqb (length addresses) (length servers)
            then "Full Cone or Restricted Cone"
            else "Restricted Cone"
          else "Symmetric NAT" in
        Some {| type := natType; mappedAddresses := addresses |}
  end.

(** The [.map(...).filter(item => item.address !== null).map(...)] chain of
    the four detectors: [slots] holds, server by server, the slot of the
    probe's answer that the detector reads. *)
Definition collect (servers : list StunServer) (slots : list (option Endpoint))
  : list Address :=
  flat_map
    (fun item : option Endpoint * StunServer =>
       match fst item with
       | Some a => [ {| ip := ep_ip a; port := ep_port a;
                        server := name (snd item) |} ]
       | None => []
       end)
    (combine slots servers).

(** ** The rendezvous transport as seen by a probe

    What an [RTCPeerConnection] delivers to the handlers a probe installs:
    [onicecandidate] events, and the rejection of the [createOffer] /
    [setLocalDescription] chain. *)

Inductive IceEvent :=
| Candidate (candidate : string)   (* event.candidate is set *)
| EndOfCandidates.                 (* event.candidate === null *)

Inductive TransportEvent :=
| Ice (e : IceEvent)
| OfferRejected.

(** A transport event together with the time, in milliseconds since the
    probe started, at which the event loop runs its handler. *)
Definition Timed : Type := Z * TransportEvent.

(** The delay every probe passes to [setTimeout]. *)
Definition probeTimeout : Z := 5000.

(** The event loop around one probe.  The probe arms its timer before it
    opens the connection, so the timer callback runs at [probeTimeout]
    unless [clearTimeout] disarmed it; a transport event due at or after
    that moment runs after the callback.  [advance] is the state once the
    handlers of [evs] have run. *)
Fixpoint advance {S : Type} (armed : S -> bool) (onTimer : Z -> S -> S)
    (deliver : Z -> TransportEvent -> S -> S) (evs : list Timed) (st : S) : S :=
  match evs with
  | [] => st
  | (t, e) :: rest =>
      let st1 := if (probeTimeout <=? t) && armed st
                 then onTimer probeTimeout st else st in
      advance armed onTimer deliver rest (deliver t e st1)
  end.

(** When the transport has nothing more to say, time still passes and a
    timer that is still armed fires. *)
Definition eventLoop {S : Type} (armed : S -> bool) (onTimer : Z -> S -> S)
    (deliver : Z -> TransportEvent -> S -> S) (evs : list Timed) (st : S) : S :=
  let st1 := advance armed onTimer deliver evs st in
  if armed st1 then onTimer probeTimeout st1 else st1.

(** ** The rendezvous probe: [getMappedAddress] *)

Record FamilySlots := { udp : option Endpoint; tcp : option Endpoint }.

(** The [addresses] object of the probe. *)
Record Addresses := { ipv4 : FamilySlots; ipv6 : FamilySlots }.

Definition noAddresses : Addresses :=
  {| ipv4 := {| udp := None; tcp := None |};
     ipv6 := {| udp := None; tcp := None |} |}.

(** The closure variables of one call.  [pc] and [timeout] say whether the
    variable of that name is non-null.  [resolve] is handed the [addresses]
    object itself, so the value of the promise is [addresses] from the moment
    [resolved] is set; [resolvedAt] records that moment. *)
Record Probe := {
  resolved : bool;
  pc : bool;
  timeout : bool;
  addresses : Addresses;
  resolvedAt : option Z
}.

Definition isIPv6 (ip : string) : bool := JS.includes ip ":".

Definition cleanup (st : Probe) : Probe :=
  {| resolved := resolved st; pc := false; timeout := false;
     addresses := addresses st; resolvedAt := resolvedAt st |}.

Definition finish (now : Z) (st : Probe) : Probe :=
  if resolved st then st
  else cleanup {| resolved := true; pc := pc st; timeout := timeout st;
                  addresses := addresses st; resolvedAt := Some now |}.

(** The validation both branches of the handler share: at least six
    space-separated parts, a non-empty fifth part, and a sixth part that
    [parseInt] reads as a number above zero. *)
Definition parseCandidate (candidate : string) : option Endpoint :=
  let parts := JS.split " " candidate in
  if (6 <=? length parts)%nat then
    let ip := nth 4 parts "" in
    match JS.parseInt (nth 5 parts "") with
    | Some port =>
        if negb (String.eqb ip "") && (0 <? port)
        then Some {| ep_ip := ip; ep_port := port |}
        else None
    | None => None
    end
  else None.

Definition isUdpSrflx (candidate : string) : bool :=
  JS.includes candidate "typ srflx" && JS.includes candidate "UDP"
  && negb (JS.includes candidate "TCP").

Definition isTcpSrflx (candidate : string) : bool :=
  JS.includes candidate "typ srflx" && JS.includes candidate "TCP".

Definition setUdp (a : Endpoint) (ads : Addresses) : Addresses :=
  if isIPv6 (ep_ip a)
  then {| ipv4 := ipv4 ads; ipv6 := {| udp := Some a; tcp := tcp (ipv6 ads) |} |}
  else {| ipv4 := {| udp := Some a; tcp := tcp (ipv4 ads) |}; ipv6 := ipv6 ads |}.

Definition setTcp (a : Endpoint) (ads : Addresses) : Addresses :=
  if isIPv6 (ep_ip a)
  then {| ipv4 := ipv4 ads; ipv6 := {| udp := udp (ipv6 ads); tcp := Some a |} |}
  else {| ipv4 := {| udp := udp (ipv4 ads); tcp := Some a |}; ipv6 := ipv6 ads |}.

(** What the handler does to [addresses] on a candidate string: a UDP
    server-reflexive candidate that validates goes to the UDP slot of its
    family, a TCP one to the TCP slot, anything else is ignored. *)
Definition store (candidate : string) (ads : Addresses) : Addresses :=
  if isUdpSrflx candidate then
    match parseCandidate candidate with
    | Some a => setUdp a ads
    | None => ads
    end
  else if isTcpSrflx candidate then
    match parseCandidate candidate with
    | Some a => setTcp a ads
    | None => ads
    end
  else ads.

(** [pc.onicecandidate] of [getMappedAddress]. *)
Definition onicecandidate (now : Z) (e : IceEvent) (st : Probe) : Probe :=
  match e with
  | Candidate candidate =>
      {| resolved := resolved st; pc := pc st; timeout := timeout st;
         addresses := store candidate (addresses st);
         resolvedAt := resolvedAt st |}
  | EndOfCandidates => finish now st
  end.

(** A closed connection fires no handlers. *)
Definition deliver (now : Z) (e : TransportEvent) (st : Probe) : Probe :=
  match e with
  | Ice e => if pc st then onicecandidate now e st else st
  | OfferRejected => finish now st
  end.

(** The state right after the promise executor has run. *)
Definition started : Probe :=
  {| resolved := false; pc := true; timeout := true;
     addresses := noAddresses; resolvedAt := None |}.

(** One call of [getMappedAddress] against a transport that behaves as
    [evs]. *)
Definition getMappedAddress (evs : list Timed) : Probe :=
  eventLoop timeout finish deliver evs started.

(** The value the promise is resolved with, if it is. *)
Definition resolution (st : Probe) : option Addresses :=
  if resolved st then Some (addresses st) else None.

(** A candidate the probe writes into one of its slots. *)
Definition accepted (candidate : string) : bool :=
  (isUdpSrflx candidate || isTcpSrflx candidate)
  && match parseCandidate candidate with Some _ => true | None => false end.

(** ** The single-result probe of the UDP-only revision

    The revision of the client before the IPv4/IPv6 x UDP/TCP matrix has a
    [getMappedAddress] that answers [{ ip, port } | null].  It has no
    [resolved] flag and never clears its timer: it relies on [resolve]
    ignoring every call but the first, and closes the connection when it
    resolves from the handler or the timer. *)

Module SingleResult.

(** [value] is what the promise holds, [None] while it is pending; [pc]
    says whether the connection is open, [timer] whether the timer has
    yet to fire. *)
Record State := { value : option (option Endpoint); pc : bool; timer : bool }.

Definition resolve (r : option Endpoint) (st : State) : State :=
  match value st with
  | Some _ => st
  | None => {| value := Some r; pc := pc st; timer := timer st |}
  end.

Definition close (st : State) : State :=
  {| value := value st; pc := false; timer := timer st |}.

Definition onicecandidate (e : IceEvent) (st : State) : State :=
  match e with
  | Candidate candidate =>
      if isUdpSrflx candidate then
        match parseCandidate candidate with
        | Some a => resolve (Some a) (close st)
        | None => st
        end
      else st
  | EndOfCandidates => resolve None (close st)
  end.

Definition onTimer (st : State) : State :=
  resolve None (close {| value := value st; pc := pc st; timer := false |}).

Definition deliver (now : Z) (e : TransportEvent) (st : State) : State :=
  match e with
  | Ice e => if pc st then onicecandidate e st else st
  | OfferRejected => resolve None st
  end.

Definition started : State := {| value := None; pc := true; timer := true |}.

Definition getMappedAddress (evs : list Timed) : option (option Endpoint) :=
  value (eventLoop timer (fun _ => onTimer) deliver evs started).

End SingleResult.

(** ** The four detectors

    [detectIPv4UDPNATType] and its three siblings differ only in the slot
    they read and in the flag of the single-server shortcut. *)

(** What [testStunServerConnection] resolves to. *)
Record Connection := { conn_udp : bool; conn_tcp : bool }.

(** [connectionResult] is the awaited [testStunServerConnection] of the only
    server (read on the single-server path only) and [mapped] the awaited
    [getMappedAddress] of every server, in roster order. *)
Definition detectFamilyNATType (servers : list StunServer)
    (connected : Connection -> bool) (slot : Addresses -> option Endpoint)
    (protocol : Protocol) (ipVersion : IpVersion)
    (connectionResult : Connection) (mapped : list Addresses)
  : option NATTypeResult :=
  if Nat.eqb (length servers) 1 then
    if connected connectionResult
    then Some {| type := "Full Cone or Restricted Cone"; mappedAddresses := [] |}
    else None
  else
    detectNATTypeFromAddresses servers (collect servers (map slot mapped))
      protocol ipVersion.

Definition detectIPv4UDPNATType servers :=
  detectFamilyNATType servers conn_udp (fun addr => udp (ipv4 addr)) UDP IPv4.

Definition detectIPv6UDPNATType servers :=
  detectFamilyNATType servers conn_udp (fun addr => udp (ipv6 addr)) UDP IPv6.

Definition detectIPv4TCPNATType servers :=
  detectFamilyNATType servers conn_tcp (fun addr => tcp (ipv4 addr)) TCP IPv4.

Definition detectIPv6TCPNATType servers :=
  detectFamilyNATType servers conn_tcp (fun addr => tcp (ipv6 addr)) TCP IPv6.

(** ** Reachability: [testStunServer], [testStunServers] *)

Definition testStunServer (result : Connection) : bool :=
  conn_udp result || conn_tcp result.

(** [connection s] is what [testStunServerConnection s] resolves to, or
    [None] when it throws, which the loop catches and logs. *)
Definition testStunServers (servers : list StunServer)
    (connection : StunServer -> option Connection) : list StunServer :=
  filter
    (fun server =>
       match connection server with
       | Some result => testStunServer result
       | None => false
       end)
    servers.

(** ** Public reachability: [detectPublicIP] *)

Module DetectPublicIP.

(** The markers whose presence anywhere in the candidate string makes the
    handler call the candidate private. *)
Definition markers : list string :=
  [ "192.168."; "10."; "172.16."; "172.17."; "172.18."; "172.19.";
    "172.20."; "172.21."; "172.22."; "172.23."; "172.24."; "172.25.";
    "172.26."; "172.27."; "172.28."; "172.29."; "172.30."; "172.31.";
    "169.254."; "127.0.0.1"; "::1"; "fc00:"; "fd00:"; "fe80:"; ".local";
    "localhost"; "0.0.0.0"; "255.255.255.255" ].

Definition isPrivateIP (candidate : string) : bool :=
  existsb (JS.includes candidate) markers.

(** [resolved] and the value given to [resolve] in one field: [None] while
    the promise is pending. *)
Record State := { settled : option bool; pc : bool; timeout : bool }.

Definition finish (result : bool) (st : State) : State :=
  match settled st with
  | Some _ => st
  | None => {| settled := Some result; pc := false; timeout := false |}
  end.

Definition onicecandidate (e : IceEvent) (st : State) : State :=
  match e with
  | Candidate candidate =>
      if isUdpSrflx candidate then finish (negb (isPrivateIP candidate)) st
      else st
  | EndOfCandidates => finish false st
  end.

Definition deliver (now : Z) (e : TransportEvent) (st : State) : State :=
  match e with
  | Ice e => if pc st then onicecandidate e st else st
  | OfferRejected => finish false st
  end.

Definition started : State :=
  {| settled := None; pc := true; timeout := true |}.

(** [transport s] is how the connection opened against [s] behaves.  The
    result is what the promise resolves to, [None] if it stayed pending. *)
Definition detectPublicIP (servers : list StunServer)
    (transport : StunServer -> list Timed) : option bool :=
  match servers with
  | [] => Some false
  | server :: _ =>
      settled (eventLoop timeout (fun _ => finish false) deliver
                 (transport server) started)
  end.

End DetectPublicIP.

(** ** The address test of [getPublicIPFromStun]

    The sibling of [detectPublicIP] extracts the address first and tests
    how it starts. *)

Module GetPublicIPFromStun.

Definition prefixes : list string :=
  [ "192.168."; "10."; "172.16."; "172.17."; "172.18."; "172.19.";
    "172.20."; "172.21."; "172.22."; "172.23."; "172.24."; "172.25.";
    "172.26."; "172.27."; "172.28."; "172.29."; "172.30."; "172.31.";
    "169.254."; "127." ].

Definition isPrivateIP (ip : string) : bool :=
  existsb (JS.startsWith ip) prefixes
  || String.eqb ip "0.0.0.0" || String.eqb ip "255.255.255.255".

End GetPublicIPFromStun.

(** ** The path-quality prober: [performSpeedTest] *)

Record MappedAddress := {
  ma_ip : string;
  ma_port : Z;
  ma_server : string;
  ma_protocol : Protocol;
  ma_ipVersion : IpVersion
}.

Inductive Status := success | failed.

Record SpeedTestResult := {
  latency : Z;
  throughput : Q;
  packetLoss : Q;
  connectionTime : Z;
  status : Status;
  packetsSent : Z;
  packetsReceived : Z;
  mappedAddress : MappedAddress
}.

Module SpeedTest.

Definition testDuration : Z := 4000.
Definition packetSize : Z := 1024.

(** The [ArrayBuffer] a tick builds: the id as an unsigned 32-bit integer,
    the send time as a float, [packetSize] bytes in all. *)
Record Packet := { packetId : Z; sentTimestamp : Z; byteLength : Z }.

(** How a [send] attempt ends: the channel takes the payload, [send] throws,
    or the channel's [readyState] is not ["open"] and nothing is attempted. *)
Inductive SendOutcome := Taken | Threw | NotOpen.

(** What happens around one speed test; [now] is [Date.now()] inside the
    handler.  The two message events are the transport handing over the
    oldest payload in flight in that direction, [arrayBuffer] telling
    whether [event.data instanceof ArrayBuffer] holds; the two loss events
    are the transport dropping it. *)
Inductive Event :=
| Channel1Open (now : Z)                               (* dataChannel1.onopen *)
| SendTick (now : Z) (o : SendOutcome)                 (* the setInterval callback *)
| StopSending                                          (* the setTimeout(testDuration) callback *)
| DataChannel                                          (* pc2.ondatachannel *)
| Channel2Message (now : Z) (arrayBuffer : bool) (echo : SendOutcome)
| Channel1Message (now : Z) (arrayBuffer : bool)
| Lost12
| Lost21
| SetupFailed (now : Z)                                (* the catch of the offer/answer chain *)
| TimerFired (now : Z).                                (* the setTimeout(testDuration + 2000) callback *)

(** The [packets] object; its [timestamps] map is written and never read. *)
Record Packets := { sent : Z; received : Z }.

Record Stats := {
  packets : Packets;
  totalBytesReceived : Z;
  latencies : list Z
}.

(** Which of the closure's handles are live: the two connections, the two
    channels (the second one once [ondatachannel] has stored it), the send
    interval and the outer timer. *)
Record Handles := {
  pcs : bool;
  dataChannel1 : bool;
  dataChannel2 : bool;
  sendInterval : bool;
  timeout : bool
}.

(** Payloads the channel has taken and not yet delivered or lost. *)
Record Wire := { wire12 : list Packet; wire21 : list Packet }.

Record State := {
  connectionEstablished : bool;
  connectionStartTime : Z;
  handles : Handles;
  stats : Stats;
  wire : Wire;
  outcome : option SpeedTestResult      (* the value the promise has *)
}.

Definition started (startTime : Z) : State :=
  {| connectionEstablished := false;
     connectionStartTime := startTime;
     handles := {| pcs := true; dataChannel1 := true; dataChannel2 := false;
                   sendInterval := false; timeout := true |};
     stats := {| packets := {| sent := 0; received := 0 |};
                 totalBytesReceived := 0; latencies := [] |};
     wire := {| wire12 := []; wire21 := [] |};
     outcome := None |}.

Definition withHandles (h : Handles) (st : State) : State :=
  {| connectionEstablished := connectionEstablished st;
     connectionStartTime := connectionStartTime st;
     handles := h; stats := stats st; wire := wire st; outcome := outcome st |}.

Definition withStats (s : Stats) (st : State) : State :=
  {| connectionEstablished := connectionEstablished st;
     connectionStartTime := connectionStartTime st;
     handles := handles st; stats := s; wire := wire st; outcome := outcome st |}.

Definition withWire (w : Wire) (st : State) : State :=
  {| connectionEstablished := connectionEstablished st;
     connectionStartTime := connectionStartTime st;
     handles := handles st; stats := stats st; wire := w; outcome := outcome st |}.

Definition clearInterval (st : State) : State :=
  let h := handles st in
  withHandles {| pcs := pcs h; dataChannel1 := dataChannel1 h;
                 dataChannel2 := dataChannel2 h; sendInterval := false;
                 timeout := timeout h |} st.

Definition cleanup (st : State) : State :=
  withHandles {| pcs := false; dataChannel1 := false; dataChannel2 := false;
                 sendInterval := sendInterval (handles st); timeout := false |} st.

(** [finish]: clean up, then [resolve], which only the first time has an
    effect. *)
Definition finish (result : SpeedTestResult) (st : State) : State :=
  let st := cleanup st in
  {| connectionEstablished := connectionEstablished st;
     connectionStartTime := connectionStartTime st;
     handles := handles st; stats := stats st; wire := wire st;
     outcome := match outcome st with Some r => Some r | None => Some result end |}.

(** [dataChannel1.onopen] *)
Definition onopen (now : Z) (st : State) : State :=
  if connectionEstablished st then st
  else
    let h := handles st in
    {| connectionEstablished := true;
       connectionStartTime := now;
       handles := {| pcs := pcs h; dataChannel1 := dataChannel1 h;
                     dataChannel2 := dataChannel2 h; sendInterval := true;
                     timeout := timeout h |};
       stats := stats st; wire := wire st; outcome := outcome st |}.

(** One firing of the send interval. *)
Definition tick (now : Z) (o : SendOutcome) (st : State) : State :=
  match o with
  | NotOpen => clearInterval st
  | _ =>
      if dataChannel1 (handles st) then
        match o with
        | Taken =>
            let p := packets (stats st) in
            let data := {| packetId := sent p mod 2 ^ 32; sentTimestamp := now;
                           byteLength := packetSize |} in
            withWire {| wire12 := wire12 (wire st) ++ [data];
                        wire21 := wire21 (wire st) |}
              (withStats {| packets := {| sent := sent p + 1; received := received p |};
                            totalBytesReceived := totalBytesReceived (stats st);
                            latencies := latencies (stats st) |} st)
        | _ => st
        end
      else clearInterval st
  end.

(** [dataChannel2.onmessage] on [data]; the echo goes back on the wire when
    the channel takes it. *)
Definition onmessage2 (now : Z) (arrayBuffer : bool) (echo : SendOutcome)
    (data : Packet) (st : State) : State :=
  if arrayBuffer && (12 <=? byteLength data) then
    let s := stats st in
    let st1 :=
      withStats {| packets := {| sent := sent (packets s);
                                 received := received (packets s) + 1 |};
                   totalBytesReceived := totalBytesReceived s + byteLength data;
                   latencies := latencies s ++ [now - sentTimestamp data] |} st in
    match echo with
    | Taken => withWire {| wire12 := wire12 (wire st1);
                           wire21 := wire21 (wire st1) ++ [data] |} st1
    | _ => st1
    end
  else st.

(** [dataChannel1.onmessage] on [data] *)
Definition onmessage1 (now : Z) (arrayBuffer : bool) (data : Packet)
    (st : State) : State :=
  if arrayBuffer && (12 <=? byteLength data) then
    let s := stats st in
    withStats {| packets := packets s;
                 totalBytesReceived := totalBytesReceived s + byteLength data;
                 latencies := latencies s ++ [now - sentTimestamp data] |} st
  else st.

Definition sum (l : list Z) : Z := fold_left Z.add l 0.

Definition avgLatency (st : State) : Q :=
  let l := latencies (stats st) in
  if (0 <? length l)%nat
  then inject_Z (sum l) / inject_Z (Z.of_nat (length l))
  else 0%Q.

Definition rawThroughput (st : State) : Q :=
  let total := totalBytesReceived (stats st) in
  if 0 <? total
  then (inject_Z total / 1024) / (inject_Z testDuration / 1000)
  else 0%Q.

(** The local [packetLoss] of the timer callback. *)
Definition rawPacketLoss (st : State) : Q :=
  let p := packets (stats st) in
  if 0 <? sent p
  then (inject_Z (sent p - received p) / inject_Z (sent p)) * 100
  else 100%Q.

(** [Math.round(x * 100) / 100] *)
Definition round2 (x : Q) : Q := inject_Z (JS.round (x * 100)) / 100.

(** The object the outer timer callback passes to [finish]. *)
Definition measured (startTime now : Z) (target : MappedAddress) (st : State)
  : SpeedTestResult :=
  {| latency := JS.round (avgLatency st);
     throughput := round2 (rawThroughput st);
     packetLoss := round2 (rawPacketLoss st);
     connectionTime := if connectionEstablished st
                       then connectionStartTime st - startTime
                       else now - startTime;
     status := if connectionEstablished st then success else failed;
     packetsSent := sent (packets (stats st));
     packetsReceived := received (packets (stats st));
     mappedAddress := target |}.

(** The object the catch of the offer/answer chain passes to [finish]. *)
Definition setupFailure (startTime now : Z) (target : MappedAddress)
  : SpeedTestResult :=
  {| latency := 0; throughput := 0; packetLoss := 100;
     connectionTime := now - startTime; status := failed;
     packetsSent := 0; packetsReceived := 0; mappedAddress := target |}.

(** One turn of the event loop.  Handlers of closed connections and of
    cleared timers do not run, and there is nothing to hand over when the
    wire is empty or the receiving channel has not been announced. *)
Definition step (startTime : Z) (target : MappedAddress) (e : Event)
    (st : State) : State :=
  let h := handles st in
  match e with
  | Channel1Open now => if pcs h then onopen now st else st
  | SendTick now o => if sendInterval h then tick now o st else st
  | StopSending => clearInterval st
  | DataChannel =>
      if pcs h
      then withHandles {| pcs := pcs h; dataChannel1 := dataChannel1 h;
                          dataChannel2 := true; sendInterval := sendInterval h;
                          timeout := timeout h |} st
      else st
  | Channel2Message now ab echo =>
      match wire12 (wire st) with
      | data :: rest =>
          if dataChannel2 h
          then onmessage2 now ab echo data
                 (withWire {| wire12 := rest; wire21 := wire21 (wire st) |} st)
          else st
      | [] => st
      end
  | Channel1Message now ab =>
      match wire21 (wire st) with
      | data :: rest =>
          if dataChannel1 h
          then onmessage1 now ab data
                 (withWire {| wire12 := wire12 (wire st); wire21 := rest |} st)
          else st
      | [] => st
      end
  | Lost12 => withWire {| wire12 := tl (wire12 (wire st));
                          wire21 := wire21 (wire st) |} st
  | Lost21 => withWire {| wire12 := wire12 (wire st);
                          wire21 := tl (wire21 (wire st)) |} st
  | SetupFailed now => finish (setupFailure startTime now target) st
  | TimerFired now =>
      if timeout h then finish (measured startTime now target st) st else st
  end.

(** The state after a schedule of events. *)
Definition run (startTime : Z) (target : MappedAddress) (schedule : list Event)
  : State :=
  fold_left (fun st e => step startTime target e st) schedule (started startTime).

(** The speed test as a function of its schedule: what the promise
    holds. *)
Definition performSpeedTest (startTime : Z) (target : MappedAddress)
    (schedule : list Event) : option SpeedTestResult :=
  outcome (run startTime target schedule).

End SpeedTest.

(** ** The aggregate: [detectNetworkType] *)

Record FamilyResult := {
  fam_udp : option NATTypeResult;
  fam_tcp : option NATTypeResult;
  fam_udpCanConnect : bool;
  fam_tcpCanConnect : bool
}.

Record Details := {
  hasPublicIP : bool;
  canReceiveFromAny : bool;
  canConnectToStun : bool;
  stunServersReachable : nat;
  det_ipv4 : FamilyResult;
  det_ipv6 : FamilyResult;
  udpNatType : string;
  tcpNatType : option string;
  udpCanConnect : bool;
  tcpCanConnect : bool;
  speedTests : list SpeedTestResult
}.

Record NetworkDetectionResult := {
  net_type : string;
  details : Details
}.

(** The overall labels of the first two rules. *)
Definition FirewalledBlocked : string := "防火墙阻断网络".
Definition OpenPublic : string := "公网型网络".

Definition formatNATType (natType : string) : string :=
  if String.eqb natType "Full Cone or Restricted Cone" then "全锥型/受限锥型NAT"
  else if String.eqb natType "Restricted Cone" then "受限锥型NAT"
  else if String.eqb natType "Symmetric NAT" then "对称型NAT（可STUN，但P2P困难）"
  else if String.eqb natType "Port Restricted" then "端口受限型NAT"
  else if String.eqb natType "Unknown" then "受限网络（可STUN通信）"
  else "受限网络（可STUN通信）".

(** [x || y] on values that are a string, [null] or [undefined]: the empty
    string is as falsy as [null]. *)
Definition orElse (x y : option string) : option string :=
  match x with
  | Some s => if String.eqb s "" then y else Some s
  | None => y
  end.

(** What the calls [detectNetworkType] awaits resolve to.  [awaitSpeedTest]
    is [None] where [performSpeedTest] rejects. *)
Record Awaited := {
  reachableServers : list StunServer;
  connectionResults : list Connection;
  awaitedPublicIP : bool;
  ipv4UdpResult : option NATTypeResult;
  ipv4TcpResult : option NATTypeResult;
  ipv6UdpResult : option NATTypeResult;
  ipv6TcpResult : option NATTypeResult;
  awaitSpeedTest : MappedAddress -> option SpeedTestResult
}.

(** The addresses of one classification, tagged for the speed test. *)
Definition tagged (r : option NATTypeResult) (p : Protocol) (v : IpVersion)
  : list MappedAddress :=
  match r with
  | Some r =>
      map (fun addr => {| ma_ip := ip addr; ma_port := port addr;
                          ma_server := server addr; ma_protocol := p;
                          ma_ipVersion := v |})
          (mappedAddresses r)
  | None => []
  end.

(** The record the caller of a rejected speed test puts in its place. *)
Definition speedTestFailure (mappedAddr : MappedAddress) : SpeedTestResult :=
  {| latency := 0; throughput := 0; packetLoss := 100; connectionTime := 0;
     status := failed; packetsSent := 0; packetsReceived := 0;
     mappedAddress := mappedAddr |}.

Definition isSome {A : Type} (x : option A) : bool :=
  match x with Some _ => true | None => false end.

Definition detectNetworkType (aw : Awaited) : NetworkDetectionResult :=
  let reachable := length (reachableServers aw) in
  let udpCan := existsb conn_udp (connectionResults aw) in
  let tcpCan := existsb conn_tcp (connectionResults aw) in
  let udpNat :=
    match orElse (orElse (option_map type (ipv4UdpResult aw))
                         (option_map type (ipv6UdpResult aw)))
                 (Some "Unknown") with
    | Some s => s
    | None => "Unknown"
    end in
  let tcpNat :=
    orElse (orElse (option_map type (ipv4TcpResult aw))
                   (option_map type (ipv6TcpResult aw))) None in
  let networkType :=
    if Nat.eqb reachable 0 then "防火墙阻断网络"
    else if awaitedPublicIP aw && String.eqb udpNat "Unknown" && negb (isSome tcpNat)
    then "公网型网络"
    else
      let udpType := formatNATType udpNat in
      match option_map formatNATType tcpNat with
      | Some tcpType =>
          if negb (String.eqb udpType tcpType)
          then "UDP " ++ udpType ++ "，TCP " ++ tcpType
          else tcpType ++ "（TCP/UDP）"
      | None => udpType ++ "（仅UDP检测）"
      end in
  let tests :=
    if (0 <? reachable)%nat && (udpCan || tcpCan) then
      map (fun mappedAddr =>
             match awaitSpeedTest aw mappedAddr with
             | Some result => result
             | None => speedTestFailure mappedAddr
             end)
          (tagged (ipv4UdpResult aw) UDP IPv4 ++ tagged (ipv4TcpResult aw) TCP IPv4
           ++ tagged (ipv6UdpResult aw) UDP IPv6 ++ tagged (ipv6TcpResult aw) TCP IPv6)
    else [] in
  {| net_type := networkType;
     details :=
       {| hasPublicIP := awaitedPublicIP aw;
          canReceiveFromAny :=
            String.eqb udpNat "Full Cone"
            || String.eqb udpNat "Full Cone or Restricted Cone";
          canConnectToStun := (0 <? reachable)%nat;
          stunServersReachable := reachable;
          det_ipv4 := {| fam_udp := ipv4UdpResult aw; fam_tcp := ipv4TcpResult aw;
                         fam_udpCanConnect := isSome (ipv4UdpResult aw);
                         fam_tcpCanConnect := isSome (ipv4TcpResult aw) |};
          det_ipv6 := {| fam_udp := ipv6UdpResult aw; fam_tcp := ipv6TcpResult aw;
                         fam_udpCanConnect := isSome (ipv6UdpResult aw);
                         fam_tcpCanConnect := isSome (ipv6TcpResult aw) |};
          udpNatType := udpNat;
          tcpNatType := tcpNat;
          udpCanConnect := udpCan;
          tcpCanConnect := tcpCan;
          speedTests := tests |} |}.

(** ** Vocabulary for the statements about probes *)

(** The state of a [getMappedAddress] call once the handlers of [evs] have
    run, before anything later happens. *)
Definition observe (evs : list Timed) : Probe :=
  advance timeout finish deliver evs started.

(** One of the four slots of [addresses]. *)
Definition slot (p : Protocol) (v : IpVersion) (ads : Addresses)
  : option Endpoint :=
  match v, p with
  | IPv4, UDP => udp (ipv4 ads)
  | IPv4, TCP => tcp (ipv4 ads)
  | IPv6, UDP => udp (ipv6 ads)
  | IPv6, TCP => tcp (ipv6 ads)
  end.

Definition family (a : Endpoint) : IpVersion :=
  if isIPv6 (ep_ip a) then IPv6 else IPv4.

(** The slot a candidate string is written to, and what is written, when
    the handler accepts it. *)
Definition slotOf (candidate : string) : option (Protocol * IpVersion * Endpoint) :=
  if isUdpSrflx candidate then
    option_map (fun a => (UDP, family a, a)) (parseCandidate candidate)
  else if isTcpSrflx candidate then
    option_map (fun a => (TCP, family a, a)) (parseCandidate candidate)
  else None.

(** Candidate strings announced at the given times. *)
Definition candidateEvents (l : list (Z * string)) : list Timed :=
  map (fun tc => (fst tc, Ice (Candidate (snd tc)))) l.

(** The candidate strings the handler of a probe gets to see: those
    announced before the first end-of-candidates, offer rejection or
    expiry of the timer. *)
Fixpoint heard (evs : list Timed) : list string :=
  match evs with
  | [] => []
  | (t, e) :: rest =>
      if probeTimeout <=? t then []
      else match e with
           | Ice (Candidate c) => c :: heard rest
           | _ => []
           end
  end.

(** The moment of that first end-of-candidates, rejection or expiry. *)
Fixpoint closing (evs : list Timed) : Z :=
  match evs with
  | [] => probeTimeout
  | (t, e) :: rest =>
      if probeTimeout <=? t then probeTimeout
      else match e with
           | Ice (Candidate _) => closing rest
           | _ => t
           end
  end.

(** The two shapes a probe goes through: listening with [ads] collected so
    far, and resolved at [t] with [ads]. *)
Definition listening (ads : Addresses) : Probe :=
  {| resolved := false; pc := true; timeout := true;
     addresses := ads; resolvedAt := None |}.

Definition resolvedWith (ads : Addresses) (t : Z) : Probe :=
  {| resolved := true; pc := false; timeout := false;
     addresses := ads; resolvedAt := Some t |}.

(** [addresses] after the handler has seen the candidate strings [cs]. *)
Definition stored (cs : list string) (ads : Addresses) : Addresses :=
  fold_left (fun a c => store c a) cs ads.

(** The transport events after which a probe stops listening. *)
Definition terminal (e : TransportEvent) : Prop :=
  e = Ice EndOfCandidates \/ e = OfferRejected.

(** What the first decisive event makes of [detectPublicIP]: the marker
    test on the first server-reflexive UDP candidate announced before an
    end-of-candidates, a rejection or the expiry of the timer, and [false]
    if one of these comes first. *)
Fixpoint verdict (evs : list Timed) : bool :=
  match evs with
  | [] => false
  | (t, e) :: rest =>
      if probeTimeout <=? t then false
      else match e with
           | Ice (Candidate c) =>
               if isUdpSrflx c then negb (DetectPublicIP.isPrivateIP c)
               else verdict rest
           | _ => false
           end
  end.

(** A [detectPublicIP] promise resolved to [b]. *)
Definition decided (b : bool) : DetectPublicIP.State :=
  {| DetectPublicIP.settled := Some b; DetectPublicIP.pc := false;
     DetectPublicIP.timeout := false |}.

(** ** Vocabulary for the statements about the speed test *)

(** What the design asks of a path-quality result. *)
Definition sound (r : SpeedTestResult) : Prop :=
  0 <= packetsReceived r <= packetsSent r
  /\ (0 <= packetLoss r /\ packetLoss r <= 100)%Q.

(** What every reachable state of a speed test satisfies: each payload
    counted as received, and each one still on the wire towards the
    responder, was counted as sent; nothing is sent before the channel
    opened; the outer timer is armed as long as the promise is pending; a
    resolved promise holds a sound result. *)
Definition consistent (st : SpeedTest.State) : Prop :=
  let p := SpeedTest.packets (SpeedTest.stats st) in
  0 <= SpeedTest.received p
  /\ SpeedTest.received p
      + Z.of_nat (length (SpeedTest.wire12 (SpeedTest.wire st)))
      <= SpeedTest.sent p
  /\ (0 < SpeedTest.sent p -> SpeedTest.connectionEstablished st = true)
  /\ (SpeedTest.sendInterval (SpeedTest.handles st) = true ->
      SpeedTest.connectionEstablished st = true)
  /\ (SpeedTest.outcome st = None ->
      SpeedTest.timeout (SpeedTest.handles st) = true)
  /\ (forall r, SpeedTest.outcome st = Some r -> sound r).

(** Splits [consistent] into its six parts without opening [sound]. *)
Ltac split_consistent :=
  unfold consistent; simpl;
  refine (conj _ (conj _ (conj _ (conj _ (conj _ _))))).

(** The address the scenarios measure. *)
Definition scenarioTarget : MappedAddress :=
  {| ma_ip := "203.0.113.5"; ma_port := 40000; ma_server := "stun.miwifi.com";
     ma_protocol := UDP; ma_ipVersion := IPv4 |}.

(** Scenario E.  The channel opens 300 ms after the start; eighty payloads
    are sent at the 50 ms cadence; the first seventy-six reach the
    responder after 10 ms and their echoes return after another 10 ms, the
    last four are lost on the way out; the outer timer fires at 6000 ms. *)
Definition scenarioE : list SpeedTest.Event :=
  [SpeedTest.Channel1Open 300; SpeedTest.DataChannel]
  ++ flat_map
       (fun k : nat =>
          let t := 350 + 50 * Z.of_nat k in
          if (k <? 76)%nat
          then [SpeedTest.SendTick t SpeedTest.Taken;
                SpeedTest.Channel2Message (t + 10) true SpeedTest.Taken;
                SpeedTest.Channel1Message (t + 20) true]
          else [SpeedTest.SendTick t SpeedTest.Taken; SpeedTest.Lost12])
       (seq 0 80)
  ++ [SpeedTest.StopSending; SpeedTest.TimerFired 6000].









(** ** The connection test: [testStunServerConnection] *)

Module TestStunServerConnection.

(** The closure variables of one call; [settled] is the object given to
    [resolve], built from the two flags at that moment. *)
Record State := {
  settled : option Connection;
  pc : bool;
  timeout : bool;
  udpConnected : bool;
  tcpConnected : bool
}.

Definition finish (st : State) : State :=
  match settled st with
  | Some _ => st
  | None =>
      {| settled := Some {| conn_udp := udpConnected st;
                            conn_tcp := tcpConnected st |};
         pc := false; timeout := false;
         udpConnected := udpConnected st; tcpConnected := tcpConnected st |}
  end.

Definition onicecandidate (e : IceEvent) (st : State) : State :=
  match e with
  | Candidate candidate =>
      if isUdpSrflx candidate then
        {| settled := settled st; pc := pc st; timeout := timeout st;
           udpConnected := true; tcpConnected := tcpConnected st |}
      else if isTcpSrflx candidate then
        {| settled := settled st; pc := pc st; timeout := timeout st;
           udpConnected := udpConnected st; tcpConnected := true |}
      else st
  | EndOfCandidates => finish st
  end.

Definition deliver (now : Z) (e : TransportEvent) (st : State) : State :=
  match e with
  | Ice e => if pc st then onicecandidate e st else st
  | OfferRejected => finish st
  end.

Definition started : State :=
  {| settled := None; pc := true; timeout := true;
     udpConnected := false; tcpConnected := false |}.

(** What the promise holds when the transport behaves as [evs]; [None] if
    it stayed pending. *)
Definition testStunServerConnection (evs : list Timed) : option Connection :=
  settled (eventLoop timeout (fun _ => finish) deliver evs started).

End TestStunServerConnection.

(** ** Vocabulary for the further properties *)

(** A candidate announcement that no slot of a probe takes. *)
Definition ignorable (x : Timed) : bool :=
  match snd x with
  | Ice (Candidate c) => negb (accepted c)
  | _ => false
  end.

(** Events listed in the order of their times. *)
Definition chronological (evs : list Timed) : Prop :=
  StronglySorted (fun x y : Timed => fst x <= fst y) evs.

(** A connection test that is still listening, and one that has resolved. *)
Definition testing (u t : bool) : TestStunServerConnection.State :=
  {| TestStunServerConnection.settled := None;
     TestStunServerConnection.pc := true;
     TestStunServerConnection.timeout := true;
     TestStunServerConnection.udpConnected := u;
     TestStunServerConnection.tcpConnected := t |}.

Definition tested (u t : bool) : TestStunServerConnection.State :=
  {| TestStunServerConnection.settled := Some {| conn_udp := u; conn_tcp := t |};
     TestStunServerConnection.pc := false;
     TestStunServerConnection.timeout := false;
     TestStunServerConnection.udpConnected := u;
     TestStunServerConnection.tcpConnected := t |}.

(** ** The regular expressions of [getPublicIPFromStun] and [getLocalIP]

    The fragment of JavaScript regular expressions the two patterns use:
    literal characters, character ranges, concatenation, alternation and
    the greedy bounded repetition [{1,3}]. *)

Module RegExp.

Inductive Regex :=
| Eps
| Chr (c : ascii)
| Class (lo hi : ascii)
| Cat (r1 r2 : Regex)
| Alt (r1 r2 : Regex).

(** [r?], greedy. *)
Definition Opt (r : Regex) : Regex := Alt r Eps.

(** [r{1,3}], greedy: three repetitions are tried before two, two before
    one. *)
Definition Upto3 (r : Regex) : Regex := Cat r (Opt (Cat r (Opt r))).

(** The characters of [s] one after the other. *)
Fixpoint lit (s : string) : Regex :=
  match s with
  | EmptyString => Eps
  | String c s' => Cat (Chr c) (lit s')
  end.

Definition inRange (lo hi x : ascii) : bool :=
  (Nat.leb (nat_of_ascii lo) (nat_of_ascii x)
   && Nat.leb (nat_of_ascii x) (nat_of_ascii hi))%bool.

(** The ways [r] matches at the start of [s], in the order in which a
    backtracking matcher tries them: each with the text matched and the
    rest of [s]. *)
Fixpoint run (r : Regex) (s : string) : list (string * string) :=
  match r with
  | Eps => [(EmptyString, s)]
  | Chr c =>
      match s with
      | String x s' => if Ascii.eqb x c then [(String x EmptyString, s')] else []
      | EmptyString => []
      end
  | Class lo hi =>
      match s with
      | String x s' => if inRange lo hi x then [(String x EmptyString, s')] else []
      | EmptyString => []
      end
  | Cat r1 r2 =>
      flat_map (fun m1 => map (fun m2 => (fst m1 ++ fst m2, snd m2))
                              (run r2 (snd m1)))
               (run r1 s)
  | Alt r1 r2 => (run r1 s ++ run r2 s)%list
  end.

(** [s.match(r)] for a pattern without flags that is one capturing group:
    the text of the first match at the leftmost position that has one, or
    [None] for [null]. *)
Fixpoint exec (r : Regex) (s : string) : option string :=
  match run r s with
  | m :: _ => Some (fst m)
  | [] =>
      match s with
      | String _ s' => exec r s'
      | EmptyString => None
      end
  end.

Definition digit : Regex := Class "0" "9".
Definition dot : Regex := Chr ".".
Definition octet : Regex := Upto3 digit.

(** [/([0-9]{1,3}\.[0-9]{1,3}\.[0-9]{1,3}\.[0-9]{1,3})/] *)
Definition dottedQuad : Regex :=
  Cat octet (Cat dot (Cat octet (Cat dot (Cat octet (Cat dot octet))))).

(** The pattern of [getLocalIP]:
    [192\.168\.D\.D | 10\.D\.D\.D | 172\.(1[6-9]|2[0-9]|3[0-1])\.D\.D
     | 169\.254\.D\.D | 127\.D\.D\.D] with [D] = [[0-9]{1,3}]. *)
Definition localAddress : Regex :=
  Alt (Cat (lit "192.168.") (Cat octet (Cat dot octet)))
 (Alt (Cat (lit "10.") (Cat octet (Cat dot (Cat octet (Cat dot octet)))))
 (Alt (Cat (lit "172.")
        (Cat (Alt (Cat (Chr "1") (Class "6" "9"))
             (Alt (Cat (Chr "2") (Class "0" "9"))
                  (Cat (Chr "3") (Class "0" "1"))))
        (Cat dot (Cat octet (Cat dot octet)))))
 (Alt (Cat (lit "169.254.") (Cat octet (Cat dot octet)))
      (Cat (lit "127.") (Cat octet (Cat dot (Cat octet (Cat dot octet)))))))).

(** The texts a pattern matches. *)
Fixpoint matches (r : Regex) (w : string) : Prop :=
  match r with
  | Eps => w = EmptyString
  | Chr c => w = String c EmptyString
  | Class lo hi => exists x, w = String x EmptyString /\ inRange lo hi x = true
  | Cat r1 r2 => exists w1 w2, w = w1 ++ w2 /\ matches r1 w1 /\ matches r2 w2
  | Alt r1 r2 => matches r1 w \/ matches r2 w
  end.

End RegExp.

(** ** The public address: [getPublicIPFromStun] *)

Module PublicIPFromStun.

(** [settled] is the value given to [resolve]: [Some None] is [null]. *)
Record State := { settled : option (option string); pc : bool; timeout : bool }.

Definition finish (result : option string) (st : State) : State :=
  match settled st with
  | Some _ => st
  | None => {| settled := Some result; pc := false; timeout := false |}
  end.

Definition onicecandidate (e : IceEvent) (st : State) : State :=
  match e with
  | Candidate candidate =>
      if isUdpSrflx candidate then
        match RegExp.exec RegExp.dottedQuad candidate with
        | Some ip =>
            if GetPublicIPFromStun.isPrivateIP ip then st
            else finish (Some ip) st
        | None => st
        end
      else st
  | EndOfCandidates => finish None st
  end.

Definition deliver (now : Z) (e : TransportEvent) (st : State) : State :=
  match e with
  | Ice e => if pc st then onicecandidate e st else st
  | OfferRejected => finish None st
  end.

Definition started : State :=
  {| settled := None; pc := true; timeout := true |}.

Definition getPublicIPFromStun (evs : list Timed) : option (option string) :=
  settled (eventLoop timeout (fun _ => finish None) deliver evs started).

End PublicIPFromStun.

(** ** The local address: [getLocalIP] *)

Module LocalIP.

Record State := { settled : option (option string); pc : bool; timeout : bool }.

Definition finish (result : option string) (st : State) : State :=
  match settled st with
  | Some _ => st
  | None => {| settled := Some result; pc := false; timeout := false |}
  end.

Definition onicecandidate (e : IceEvent) (st : State) : State :=
  match e with
  | Candidate candidate =>
      match RegExp.exec RegExp.localAddress candidate with
      | Some localIP => finish (Some localIP) st
      | None => st
      end
  | EndOfCandidates => finish None st
  end.

Definition deliver (now : Z) (e : TransportEvent) (st : State) : State :=
  match e with
  | Ice e => if pc st then onicecandidate e st else st
  | OfferRejected => finish None st
  end.

Definition started : State :=
  {| settled := None; pc := true; timeout := true |}.

Definition getLocalIP (evs : list Timed) : option (option string) :=
  settled (eventLoop timeout (fun _ => finish None) deliver evs started).

End LocalIP.

(** What the two address lookups come to: the first address, among the
    candidates heard, that the handler resolves with. *)
Fixpoint publicAnswer (cs : list string) : option string :=
  match cs with
  | [] => None
  | c :: rest =>
      if isUdpSrflx c then
        match RegExp.exec RegExp.dottedQuad c with
        | Some ip => if GetPublicIPFromStun.isPrivateIP ip
                     then publicAnswer rest else Some ip
        | None => publicAnswer rest
        end
      else publicAnswer rest
  end.

Fixpoint localAnswer (cs : list string) : option string :=
  match cs with
  | [] => None
  | c :: rest =>
      match RegExp.exec RegExp.localAddress c with
      | Some ip => Some ip
      | None => localAnswer rest
      end
  end.

(** A group of one to three decimal digits. *)
Fixpoint allDigits (w : string) : bool :=
  match w with
  | EmptyString => true
  | String x w' => RegExp.inRange "0" "9" x && allDigits w'
  end.

Definition isOctet (w : string) : Prop :=
  (1 <= String.length w <= 3)%nat /\ allDigits w = true.

(** An address lookup that has resolved. *)
Definition publicResolved (r : option string) : PublicIPFromStun.State :=
  {| PublicIPFromStun.settled := Some r; PublicIPFromStun.pc := false;
     PublicIPFromStun.timeout := false |}.

Definition localResolved (r : option string) : LocalIP.State :=
  {| LocalIP.settled := Some r; LocalIP.pc := false; LocalIP.timeout := false |}.

(** ** Vocabulary for the further properties of the speed test *)

(** Once the promise is resolved, every handle is released. *)
Definition released (st : SpeedTest.State) : Prop :=
  SpeedTest.outcome st <> None ->
  SpeedTest.pcs (SpeedTest.handles st) = false
  /\ SpeedTest.dataChannel1 (SpeedTest.handles st) = false
  /\ SpeedTest.dataChannel2 (SpeedTest.handles st) = false
  /\ SpeedTest.timeout (SpeedTest.handles st) = false.

Definition noStats : SpeedTest.Stats :=
  {| SpeedTest.packets := {| SpeedTest.sent := 0; SpeedTest.received := 0 |};
     SpeedTest.totalBytesReceived := 0; SpeedTest.latencies := [] |}.

(** The result of a test whose channel never opened. *)
Definition nothingMeasured (r : SpeedTestResult) : Prop :=
  status r = failed /\ packetsSent r = 0 /\ packetsReceived r = 0
  /\ latency r = 0 /\ (throughput r == 0)%Q /\ (packetLoss r == 100)%Q.

(** A test on which [dataChannel1.onopen] has not run. *)
Definition unopened (st : SpeedTest.State) : Prop :=
  SpeedTest.connectionEstablished st = false
  /\ SpeedTest.sendInterval (SpeedTest.handles st) = false
  /\ SpeedTest.stats st = noStats
  /\ SpeedTest.wire st = {| SpeedTest.wire12 := []; SpeedTest.wire21 := [] |}
  /\ (forall r, SpeedTest.outcome st = Some r -> nothingMeasured r).

(** Every payload on the wire has [packetSize] bytes; every message counted
    added one latency sample and [packetSize] bytes; the samples are the
    payloads received by the responder plus the echoes received back, of
    which there are no more than payloads received. *)
Definition accounted (st : SpeedTest.State) : Prop :=
  let s := SpeedTest.stats st in
  let n := Z.of_nat (length (SpeedTest.latencies s)) in
  Forall (fun d => SpeedTest.byteLength d = SpeedTest.packetSize)
         (SpeedTest.wire12 (SpeedTest.wire st))
  /\ Forall (fun d => SpeedTest.byteLength d = SpeedTest.packetSize)
            (SpeedTest.wire21 (SpeedTest.wire st))
  /\ SpeedTest.totalBytesReceived s = SpeedTest.packetSize * n
  /\ SpeedTest.received (SpeedTest.packets s) <= n
  /\ n + Z.of_nat (length (SpeedTest.wire21 (SpeedTest.wire st)))
     <= 2 * SpeedTest.received (SpeedTest.packets s).

(** A test whose channel opened and whose send interval has been cleared. *)
Definition stopped (st : SpeedTest.State) : Prop :=
  SpeedTest.connectionEstablished st = true
  /\ SpeedTest.sendInterval (SpeedTest.handles st) = false.

(** Splits a conjunction of five parts without opening the last one. *)
Ltac split5 := refine (conj _ (conj _ (conj _ (conj _ _)))).

(** ** The report: [getDetailedNetworkInfo] *)

Record DetailedNetworkInfo := {
  info_type : string;
  info_stunServers : list (StunServer * bool);     (* { server, reachable } *)
  info_publicIP : option string;
  info_localIP : option string;
  info_details : Details
}.

(** [networkTypeResult], [publicIP] and [localIP] are what the three calls
    run in parallel resolve to, [reachableServers] what the second
    [testStunServers] resolves to.  With an empty roster
    [this.stunServers[0]] is [undefined], the executor of
    [getPublicIPFromStun] throws on [server.url] and the whole call
    rejects: [None]. *)
Definition getDetailedNetworkInfo (servers : list StunServer)
    (networkTypeResult : NetworkDetectionResult)
    (publicIP localIP : option string) (reachableServers : list StunServer)
  : option DetailedNetworkInfo :=
  match servers with
  | [] => None
  | _ :: _ =>
      Some {| info_type := net_type networkTypeResult;
              info_stunServers :=
                map (fun server =>
                       (server,
                        existsb (fun rs => String.eqb (host rs) (host server))
                                reachableServers))
                    servers;
              info_publicIP := publicIP;
              info_localIP := localIP;
              info_details := details networkTypeResult |}
  end.

(** * Properties *)

Local Open Scope list_scope.

(** ** Facts about the string primitives and lists *)

Lemma filter_length_all {A : Type} (f : A -> bool) (l : list A) :
  Nat.eqb (length (filter f l)) (length l) = forallb f l.
Proof.
  assert (Hle : forall l', (length (filter f l') <= length l')%nat).
  { induction l' as [|x l' IH]; simpl; [lia|]. destruct (f x); simpl; lia. }
  induction l as [|x l IH]; simpl; [reflexivity|].
  destruct (f x); simpl; [exact IH|].
  apply Nat.eqb_neq. specialize (Hle l). lia.
Qed.

(** ** The classifier *)

Section ClassifierFacts.

Variable servers : list StunServer.

Lemma allSameIP_intro (addresses : list Address) (x : string) :
  (forall a, In a addresses -> ip a = x) -> allSameIP addresses x = true.
Proof.
  intros H. apply forallb_forall. intros a Ha. apply String.eqb_eq. auto.
Qed.

Lemma allSamePort_intro (addresses : list Address) (x : Z) :
  (forall a, In a addresses -> port a = x) -> allSamePort addresses x = true.
Proof.
  intros H. apply forallb_forall. intros a Ha. apply Z.eqb_eq. auto.
Qed.

Lemma allSamePort_elim (addresses : list Address) (x : Z) (a : Address) :
  allSamePort addresses x = true -> In a addresses -> port a = x.
Proof.
  intros H Ha. unfold allSamePort in H. rewrite forallb_forall in H.
  apply Z.eqb_eq. auto.
Qed.

(** The classifier on a list whose addresses agree on IP and port. *)
Lemma classify_stable (addresses : list Address) (p : Protocol) (v : IpVersion) :
  addresses <> [] ->
  (forall a b, In a addresses -> In b addresses -> ip a = ip b /\ port a = port b) ->
  detectNATTypeFromAddresses servers addresses p v =
    Some {| type := if Nat.eqb (length addresses) (length servers)
                    then EndpointIndependentMapping else PortRestricted;
            mappedAddresses := addresses |}.
Proof.
  intros Hne Hsame. destruct addresses as [|first rest]; [congruence|].
  unfold detectNATTypeFromAddresses.
  rewrite allSameIP_intro, allSamePort_intro; [reflexivity | |].
  - intros a Ha. apply Hsame; [exact Ha | left; reflexivity].
  - intros a Ha. apply Hsame; [exact Ha | left; reflexivity].
Qed.

(** The detectors hand the classifier one address per server whose probe
    filled the slot. *)
Lemma collect_length (slots : list (option Endpoint)) :
  length slots = length servers ->
  length (collect servers slots) = length (filter isSome slots).
Proof.
  unfold collect. generalize servers. clear servers.
  induction slots as [|s slots IH]; intros [|srv servers] Hlen;
    simpl in *; try discriminate; [reflexivity|].
  rewrite length_app. injection Hlen as Hlen. rewrite (IH _ Hlen).
  destruct s; reflexivity.
Qed.

Lemma collect_complete (slots : list (option Endpoint)) :
  length slots = length servers ->
  Nat.eqb (length (collect servers slots)) (length servers) = forallb isSome slots.
Proof.
  intros Hlen. rewrite (collect_length _ Hlen), <- Hlen.
  apply filter_length_all.
Qed.

End ClassifierFacts.

(** C1.  Whenever the addresses collected for one transport and family are
    not empty and all carry the same IP and the same port, the classifier
    answers [EndpointIndependentMapping] if every configured server's probe
    produced a mapping and [PortRestricted] if only some did, with the
    collected addresses as evidence; the answer is never
    [EndpointDependentMapping]. *)
Theorem classify_same_ip_same_port
    (servers : list StunServer) (slots : list (option Endpoint))
    (p : Protocol) (v : IpVersion) :
  length slots = length servers ->
  collect servers slots <> [] ->
  (forall a b, In a (collect servers slots) -> In b (collect servers slots) ->
               ip a = ip b /\ port a = port b) ->
  exists r,
    detectNATTypeFromAddresses servers (collect servers slots) p v = Some r
    /\ mappedAddresses r = collect servers slots
    /\ type r = (if forallb isSome slots
                 then EndpointIndependentMapping else PortRestricted)
    /\ type r <> EndpointDependentMapping.
Proof.
  intros Hlen Hne Hsame.
  rewrite (classify_stable servers _ p v Hne Hsame).
  rewrite (collect_complete servers slots Hlen).
  eexists; repeat split; simpl.
  destruct (forallb isSome slots); discriminate.
Qed.

(** Both branches of C1 on the configured roster: both servers answer
    203.0.113.5:40000, and only the first one does. *)
Lemma classify_same_ip_same_port_witness :
  (exists r,
     detectNATTypeFromAddresses stunServers
       (collect stunServers
          [Some {| ep_ip := "203.0.113.5"; ep_port := 40000 |};
           Some {| ep_ip := "203.0.113.5"; ep_port := 40000 |}]) UDP IPv4 = Some r
     /\ mappedAddresses r =
          collect stunServers
            [Some {| ep_ip := "203.0.113.5"; ep_port := 40000 |};
             Some {| ep_ip := "203.0.113.5"; ep_port := 40000 |}]
     /\ type r = EndpointIndependentMapping
     /\ type r <> EndpointDependentMapping)
  /\
  (exists r,
     detectNATTypeFromAddresses stunServers
       (collect stunServers
          [Some {| ep_ip := "203.0.113.5"; ep_port := 40000 |}; None]) UDP IPv4 = Some r
     /\ mappedAddresses r =
          collect stunServers
            [Some {| ep_ip := "203.0.113.5"; ep_port := 40000 |}; None]
     /\ type r = PortRestricted
     /\ type r <> EndpointDependentMapping).
Proof.
  split.
  - apply (classify_same_ip_same_port stunServers
             [Some {| ep_ip := "203.0.113.5"; ep_port := 40000 |};
              Some {| ep_ip := "203.0.113.5"; ep_port := 40000 |}] UDP IPv4).
    + reflexivity.
    + discriminate.
    + simpl. intros a b [<-|[<-|[]]] [<-|[<-|[]]]; split; reflexivity.
  - apply (classify_same_ip_same_port stunServers
             [Some {| ep_ip := "203.0.113.5"; ep_port := 40000 |}; None] UDP IPv4).
    + reflexivity.
    + discriminate.
    + simpl. intros a b [<-|[]] [<-|[]]; split; reflexivity.
Defined.

(** C2.  Whenever all addresses carry one IP and two of them differ in
    their port, the classifier answers [EndpointDependentMapping], with the
    addresses as evidence. *)
Theorem classify_same_ip_distinct_ports
    (servers : list StunServer) (addresses : list Address)
    (p : Protocol) (v : IpVersion) :
  (forall a b, In a addresses -> In b addresses -> ip a = ip b) ->
  (exists a b, In a addresses /\ In b addresses /\ port a <> port b) ->
  detectNATTypeFromAddresses servers addresses p v =
    Some {| type := EndpointDependentMapping; mappedAddresses := addresses |}.
Proof.
  intros Hip (a & b & Ha & Hb & Hport).
  destruct addresses as [|first rest]; [destruct Ha|].
  unfold detectNATTypeFromAddresses.
  rewrite allSameIP_intro
    by (intros x Hx; apply Hip; [exact Hx | left; reflexivity]).
  destruct (allSamePort (first :: rest) (port first)) eqn:Hp; [|reflexivity].
  exfalso. apply Hport.
  rewrite (allSamePort_elim _ _ a Hp Ha), (allSamePort_elim _ _ b Hp Hb).
  reflexivity.
Qed.

(** Scenario B: the first server reports 203.0.113.5:40000 and the second
    203.0.113.5:51000. *)
Lemma classify_same_ip_distinct_ports_witness :
  detectNATTypeFromAddresses stunServers
    [ {| ip := "203.0.113.5"; port := 40000; server := "stun.miwifi.com" |};
      {| ip := "203.0.113.5"; port := 51000; server := "stun.l.google.com" |} ]
    UDP IPv4
  = Some {| type := EndpointDependentMapping;
            mappedAddresses :=
              [ {| ip := "203.0.113.5"; port := 40000; server := "stun.miwifi.com" |};
                {| ip := "203.0.113.5"; port := 51000; server := "stun.l.google.com" |} ] |}.
Proof.
  apply classify_same_ip_distinct_ports.
  - simpl. intros a b [<-|[<-|[]]] [<-|[<-|[]]]; reflexivity.
  - eexists; eexists; split; [left; reflexivity|].
    split; [right; left; reflexivity|]. simpl. lia.
Defined.

(** C3, as the claim words it, fails on the configured roster: with two
    servers configured and a mapping from one of them, the classifier
    answers [PortRestricted]. *)
Lemma single_mapping_of_two_servers_is_port_restricted :
  detectNATTypeFromAddresses stunServers
    [ {| ip := "203.0.113.5"; port := 40000; server := "stun.miwifi.com" |} ]
    UDP IPv4
  = Some {| type := PortRestricted;
            mappedAddresses :=
              [ {| ip := "203.0.113.5"; port := 40000; server := "stun.miwifi.com" |} ] |}
  /\ PortRestricted <> EndpointIndependentMapping.
Proof. split; [reflexivity | discriminate]. Qed.

(** C3, amended.  On a single mapping the classifier's evidence is that
    mapping, and the category is [EndpointIndependentMapping] exactly when
    a single server is configured; with any other roster it is
    [PortRestricted]. *)
Theorem classify_single_mapping
    (servers : list StunServer) (a : Address) (p : Protocol) (v : IpVersion) :
  detectNATTypeFromAddresses servers [a] p v =
    Some {| type := if Nat.eqb (length servers) 1
                    then EndpointIndependentMapping else PortRestricted;
            mappedAddresses := [a] |}.
Proof.
  unfold detectNATTypeFromAddresses, allSameIP, allSamePort. simpl.
  rewrite String.eqb_refl, Z.eqb_refl. simpl.
  destruct (length servers) as [|[|n]]; reflexivity.
Qed.

(** With a roster of any size but one, a detector is the classifier on the
    addresses collected from its slot. *)
Lemma detectIPv4UDPNATType_classifies (servers : list StunServer)
    (connectionResult : Connection) (mapped : list Addresses) :
  length servers <> 1%nat ->
  detectIPv4UDPNATType servers connectionResult mapped
  = detectNATTypeFromAddresses servers
      (collect servers (map (fun addr => udp (ipv4 addr)) mapped)) UDP IPv4.
Proof.
  intros H. unfold detectIPv4UDPNATType, detectFamilyNATType.
  apply Nat.eqb_neq in H. rewrite H. reflexivity.
Qed.

(** With a single configured server the detectors do not consult the
    classifier: a successful connection test alone gives
    [EndpointIndependentMapping], and the evidence is empty. *)
Lemma detectIPv4UDPNATType_single_server (s : StunServer)
    (connectionResult : Connection) (mapped : list Addresses) :
  detectIPv4UDPNATType [s] connectionResult mapped
  = if conn_udp connectionResult
    then Some {| type := EndpointIndependentMapping; mappedAddresses := [] |}
    else None.
Proof. reflexivity. Qed.

(** ** The rendezvous probe *)

Section ProbeFacts.

Lemma advance_resolved (evs : list Timed) (ads : Addresses) (t : Z) :
  advance timeout finish deliver evs (resolvedWith ads t) = resolvedWith ads t.
Proof.
  induction evs as [|[t' e] rest IH]; simpl; [reflexivity|].
  rewrite andb_false_r. destruct e as [e|]; simpl; exact IH.
Qed.

(** A probe that is listening ends up resolved, with what its handler
    stored from the candidates it heard, at the first end-of-candidates,
    rejection or expiry. *)
Lemma eventLoop_listening (evs : list Timed) (ads : Addresses) :
  eventLoop timeout finish deliver evs (listening ads)
  = resolvedWith (stored (heard evs) ads) (closing evs).
Proof.
  unfold eventLoop. revert ads.
  induction evs as [|[t e] rest IH]; intros ads; simpl; [reflexivity|].
  destruct (probeTimeout <=? t) eqn:Ht; simpl.
  - change (finish probeTimeout (listening ads)) with (resolvedWith ads probeTimeout).
    assert (Hd : deliver t e (resolvedWith ads probeTimeout) = resolvedWith ads probeTimeout)
      by (destruct e as [e|]; reflexivity).
    rewrite Hd, advance_resolved. reflexivity.
  - destruct e as [[c|]|]; simpl.
    + apply (IH (store c ads)).
    + change (finish t (listening ads)) with (resolvedWith ads t).
      rewrite advance_resolved. reflexivity.
    + change (finish t (listening ads)) with (resolvedWith ads t).
      rewrite advance_resolved. reflexivity.
Qed.

Lemma getMappedAddress_eq (evs : list Timed) :
  getMappedAddress evs = resolvedWith (stored (heard evs) noAddresses) (closing evs).
Proof. apply (eventLoop_listening evs noAddresses). Qed.


Lemma heard_in (evs : list Timed) (c : string) :
  In c (heard evs) ->
  exists t, In (t, Ice (Candidate c)) evs /\ t < probeTimeout.
Proof.
  induction evs as [|[t e] rest IH]; simpl; [intros []|].
  destruct (probeTimeout <=? t) eqn:Ht; [intros []|].
  apply Z.leb_gt in Ht.
  destruct e as [[c'|]|]; simpl; [|intros []|intros []].
  intros [->|Hin].
  - exists t. split; [left; reflexivity | exact Ht].
  - destruct (IH Hin) as (t' & Hin' & Ht'). exists t'. split; [right|]; assumption.
Qed.

Lemma store_ignored (c : string) (ads : Addresses) :
  accepted c = false -> store c ads = ads.
Proof.
  unfold accepted, store. intros H.
  destruct (isUdpSrflx c), (isTcpSrflx c), (parseCandidate c);
    simpl in H; try discriminate; reflexivity.
Qed.


(** The handler accepts exactly the candidates that have a slot. *)
Lemma slotOf_accepted (c : string) :
  accepted c = true <-> exists p v a, slotOf c = Some (p, v, a).
Proof.
  unfold accepted, slotOf.
  destruct (isUdpSrflx c); [|destruct (isTcpSrflx c)];
    destruct (parseCandidate c) as [a|]; simpl; split;
    try discriminate; try (intros (p & v & a' & H); discriminate);
    intros _; try reflexivity; eauto.
Qed.

Lemma store_hit (c : string) (p : Protocol) (v : IpVersion) (a : Endpoint)
    (ads : Addresses) :
  slotOf c = Some (p, v, a) -> slot p v (store c ads) = Some a.
Proof.
  unfold slotOf, store, setUdp, setTcp, family.
  destruct (isUdpSrflx c); [|destruct (isTcpSrflx c)];
    destruct (parseCandidate c) as [a'|]; simpl; try discriminate;
    destruct (isIPv6 (ep_ip a')); intros [= <- <- <-]; reflexivity.
Qed.

Lemma store_miss (c : string) (p : Protocol) (v : IpVersion) (ads : Addresses) :
  (forall a, slotOf c <> Some (p, v, a)) -> slot p v (store c ads) = slot p v ads.
Proof.
  unfold slotOf, store, setUdp, setTcp, family. intros H.
  destruct (isUdpSrflx c); [|destruct (isTcpSrflx c)];
    destruct (parseCandidate c) as [a'|]; simpl in *; try reflexivity;
    specialize (H a'); destruct (isIPv6 (ep_ip a')); destruct p, v;
    try reflexivity; congruence.
Qed.

(** In a slot, the last candidate stored wins. *)
Lemma stored_last (pre post : list string) (c : string)
    (p : Protocol) (v : IpVersion) (a : Endpoint) (ads : Addresses) :
  slotOf c = Some (p, v, a) ->
  (forall c', In c' post -> forall a', slotOf c' <> Some (p, v, a')) ->
  slot p v (stored (pre ++ c :: post) ads) = Some a.
Proof.
  intros Hc Hpost. unfold stored. rewrite fold_left_app. simpl.
  set (ads1 := store c _).
  assert (H1 : slot p v ads1 = Some a) by (apply store_hit; exact Hc).
  clearbody ads1. revert ads1 H1.
  induction post as [|c' post IH]; intros ads1 H1; simpl; [exact H1|].
  apply IH.
  - intros c'' Hin. apply Hpost. right. exact Hin.
  - rewrite store_miss; [exact H1|]. apply Hpost. left. reflexivity.
Qed.

Lemma heard_candidates (l : list (Z * string)) (tail : list Timed) :
  Forall (fun tc => fst tc < probeTimeout) l ->
  heard (candidateEvents l ++ tail) = (map snd l ++ heard tail)%list
  /\ closing (candidateEvents l ++ tail) = closing tail.
Proof.
  induction 1 as [|[t c] l Ht _ IH]; simpl; [split; reflexivity|].
  simpl in Ht. apply Z.leb_gt in Ht. rewrite Ht.
  destruct IH as [-> ->]. split; reflexivity.
Qed.

Lemma heard_terminal (t : Z) (e : TransportEvent) (rest : list Timed) :
  t < probeTimeout -> terminal e ->
  heard ((t, e) :: rest) = [] /\ closing ((t, e) :: rest) = t.
Proof.
  intros Ht He. apply Z.leb_gt in Ht. simpl. rewrite Ht.
  destruct He as [-> | ->]; split; reflexivity.
Qed.

End ProbeFacts.

(** C7, as the claim words it, fails.  A first server-reflexive UDP
    candidate 203.0.113.5:40000 at 100 ms leaves the probe listening; a
    second one, 203.0.113.5:51000 at 200 ms, replaces it; the probe
    resolves at the end-of-candidates event at 300 ms, with the second
    address.  Had the second candidate not come, the result would have
    been the first address. *)
Lemma first_matching_candidate_does_not_finish_probe :
  let first := "candidate:1 1 UDP 1685987327 203.0.113.5 40000 typ srflx raddr 0.0.0.0 rport 0" in
  let second := "candidate:1 1 UDP 1685987327 203.0.113.5 51000 typ srflx raddr 0.0.0.0 rport 0" in
  accepted first = true
  /\ resolution (observe [(100, Ice (Candidate first))]) = None
  /\ udp (ipv4 (addresses (observe [(100, Ice (Candidate first))])))
     = Some {| ep_ip := "203.0.113.5"; ep_port := 40000 |}
  /\ getMappedAddress [(100, Ice (Candidate first)); (200, Ice (Candidate second));
                       (300, Ice EndOfCandidates)]
     = resolvedWith
         {| ipv4 := {| udp := Some {| ep_ip := "203.0.113.5"; ep_port := 51000 |};
                       tcp := None |};
            ipv6 := {| udp := None; tcp := None |} |} 300
  /\ getMappedAddress [(100, Ice (Candidate first)); (300, Ice EndOfCandidates)]
     = resolvedWith
         {| ipv4 := {| udp := Some {| ep_ip := "203.0.113.5"; ep_port := 40000 |};
                       tcp := None |};
            ipv6 := {| udp := None; tcp := None |} |} 300.
Proof. repeat split; vm_compute; reflexivity. Qed.

(** C7, amended.  A matching candidate does not finish the probe: after
    any candidates announced before the timeout the probe is still
    listening, and it resolves at what comes next, be it an
    end-of-candidates event or an offer rejection before the timeout, or
    the expiry of the timer at [probeTimeout] when the transport is silent
    or its next event is due no earlier.  Each accepted candidate is stored
    in the slot of its transport and family, so in each of these cases the
    slot of the result holds the last candidate accepted for it before that
    moment; whatever the transport emits afterwards is not waited for and
    changes nothing. *)
Theorem probe_keeps_last_match_until_complete
    (pre post : list (Z * string)) (tc : Z) (c : string)
    (tail : list Timed)
    (p : Protocol) (v : IpVersion) (a : Endpoint) :
  Forall (fun x => fst x < probeTimeout) (pre ++ (tc, c) :: post) ->
  match tail with
  | [] => True
  | (t, fin) :: _ => t < probeTimeout -> terminal fin
  end ->
  slotOf c = Some (p, v, a) ->
  (forall x, In x post -> forall a', slotOf (snd x) <> Some (p, v, a')) ->
  resolved (observe (candidateEvents (pre ++ (tc, c) :: post))) = false
  /\ forall st,
       st = getMappedAddress
              (candidateEvents (pre ++ (tc, c) :: post) ++ tail) ->
       resolved st = true
       /\ resolvedAt st
          = Some match tail with
                 | [] => probeTimeout
                 | (t, _) :: _ => Z.min t probeTimeout
                 end
       /\ slot p v (addresses st) = Some a
       /\ st = getMappedAddress
                 (candidateEvents (pre ++ (tc, c) :: post) ++ firstn 1 tail)
       /\ (match tail with
           | [] => True
           | (t, _) :: _ => probeTimeout <= t
           end ->
           st = getMappedAddress (candidateEvents (pre ++ (tc, c) :: post))).
Proof.
  intros Hearly Htail Hc Hpost.
  set (tEnd := match tail with
               | [] => probeTimeout
               | (t, _) :: _ => Z.min t probeTimeout
               end).
  assert (Hend : forall tail',
             tail' = tail \/ tail' = firstn 1 tail ->
             heard tail' = [] /\ closing tail' = tEnd).
  { intros tail' Htail'. unfold tEnd.
    destruct tail as [|[t fin] rest].
    - destruct Htail' as [-> | ->]; split; reflexivity.
    - assert (Hboth : heard ((t, fin) :: rest) = heard [(t, fin)]
                      /\ closing ((t, fin) :: rest) = closing [(t, fin)]
                      /\ heard [(t, fin)] = []
                      /\ closing [(t, fin)] = Z.min t probeTimeout).
      { simpl. destruct (probeTimeout <=? t) eqn:Ht.
        - apply Z.leb_le in Ht. repeat split. lia.
        - apply Z.leb_gt in Ht. destruct (Htail Ht) as [-> | ->];
            repeat split; lia. }
      destruct Hboth as (H1 & H2 & H3 & H4).
      destruct Htail' as [-> | ->].
      + split; [exact (eq_trans H1 H3) | exact (eq_trans H2 H4)].
      + change (firstn 1 ((t, fin) :: rest)) with [(t, fin)].
        split; assumption. }
  assert (Hres : forall tail',
             tail' = tail \/ tail' = firstn 1 tail ->
             getMappedAddress
               (candidateEvents (pre ++ (tc, c) :: post) ++ tail')
             = resolvedWith
                 (stored (map snd (pre ++ (tc, c) :: post)) noAddresses) tEnd).
  { intros tail' Htail'. rewrite getMappedAddress_eq.
    destruct (heard_candidates _ tail' Hearly) as [-> ->].
    destruct (Hend tail' Htail') as [-> ->].
    rewrite app_nil_r. reflexivity. }
  split.
  - unfold observe. clear Hres Hend Hc Hpost.
    change started with (listening noAddresses). generalize noAddresses.
    induction (pre ++ (tc, c) :: post) as [|[t' c'] l IH]; intros ads;
      [reflexivity|].
    inversion Hearly as [|? ? Ht' Hl]; subst. simpl in Ht'.
    apply Z.leb_gt in Ht'. simpl. rewrite Ht'. simpl.
    apply (IH Hl (store c' ads)).
  - intros st ->.
    rewrite (Hres tail (or_introl eq_refl)),
            (Hres (firstn 1 tail) (or_intror eq_refl)).
    split; [reflexivity|]. split; [reflexivity|]. split; [|split].
    + simpl. rewrite map_app. simpl. apply stored_last; [exact Hc|].
      intros c' Hin a'. apply in_map_iff in Hin.
      destruct Hin as (x & <- & Hx). apply Hpost. exact Hx.
    + reflexivity.
    + intros Hlate. rewrite getMappedAddress_eq.
      destruct (heard_candidates _ [] Hearly) as [H1 H2].
      rewrite app_nil_r in H1, H2. rewrite H1, H2. simpl. rewrite app_nil_r.
      unfold tEnd. destruct tail as [|[t fin] rest]; [reflexivity|].
      rewrite Z.min_r by exact Hlate. reflexivity.
Qed.

(** The amended C7 on three runs.  In the first a single candidate is
    accepted at 100 ms and the transport then stays silent: the probe
    resolves at 5000 ms with that candidate in the IPv4 UDP slot.  In the
    second a further candidate for the slot is due at 5200 ms: it comes
    too late and the slot keeps the earlier one.  The third is the run that
    refutes the original: the second candidate is the last one for the
    slot before the end-of-candidates event at 300 ms, and the candidate
    after that event is not waited for. *)
Lemma probe_keeps_last_match_until_complete_witness :
  let first := "candidate:1 1 UDP 1685987327 203.0.113.5 40000 typ srflx raddr 0.0.0.0 rport 0" in
  let second := "candidate:1 1 UDP 1685987327 203.0.113.5 51000 typ srflx raddr 0.0.0.0 rport 0" in
  let third := "candidate:1 1 UDP 1685987327 203.0.113.5 52000 typ srflx raddr 0.0.0.0 rport 0" in
  (resolved (getMappedAddress [(100, Ice (Candidate first))]) = true
   /\ resolvedAt (getMappedAddress [(100, Ice (Candidate first))]) = Some 5000
   /\ slot UDP IPv4 (addresses (getMappedAddress [(100, Ice (Candidate first))]))
      = Some {| ep_ip := "203.0.113.5"; ep_port := 40000 |})
  /\ (resolvedAt (getMappedAddress [(100, Ice (Candidate first));
                                    (5200, Ice (Candidate second))]) = Some 5000
      /\ slot UDP IPv4
           (addresses (getMappedAddress [(100, Ice (Candidate first));
                                         (5200, Ice (Candidate second))]))
         = Some {| ep_ip := "203.0.113.5"; ep_port := 40000 |})
  /\ (resolvedAt (getMappedAddress [(100, Ice (Candidate first));
                                    (200, Ice (Candidate second));
                                    (300, Ice EndOfCandidates);
                                    (350, Ice (Candidate third))]) = Some 300
      /\ slot UDP IPv4
           (addresses (getMappedAddress [(100, Ice (Candidate first));
                                         (200, Ice (Candidate second));
                                         (300, Ice EndOfCandidates);
                                         (350, Ice (Candidate third))]))
         = Some {| ep_ip := "203.0.113.5"; ep_port := 51000 |}).
Proof.
  intros first second third.
  assert (Hfirst : slotOf first
                   = Some (UDP, IPv4, {| ep_ip := "203.0.113.5"; ep_port := 40000 |}))
    by reflexivity.
  assert (Hsecond : slotOf second
                    = Some (UDP, IPv4, {| ep_ip := "203.0.113.5"; ep_port := 51000 |}))
    by reflexivity.
  split; [|split].
  - destruct (probe_keeps_last_match_until_complete
                [] [] 100 first [] UDP IPv4 _
                ltac:(repeat constructor; simpl; unfold probeTimeout; lia)
                I Hfirst ltac:(intros x []))
      as [_ H].
    destruct (H _ eq_refl) as (H1 & H2 & H3 & _).
    split; [exact H1 | split; [exact H2 | exact H3]].
  - destruct (probe_keeps_last_match_until_complete
                [] [] 100 first [(5200, Ice (Candidate second))] UDP IPv4 _
                ltac:(repeat constructor; simpl; unfold probeTimeout; lia)
                ltac:(unfold probeTimeout; lia)
                Hfirst ltac:(intros x []))
      as [_ H].
    destruct (H _ eq_refl) as (_ & H2 & H3 & _).
    split; [exact H2 | exact H3].
  - destruct (probe_keeps_last_match_until_complete
                [(100, first)] [] 200 second
                [(300, Ice EndOfCandidates); (350, Ice (Candidate third))]
                UDP IPv4 _
                ltac:(repeat constructor; simpl; unfold probeTimeout; lia)
                ltac:(intros _; left; reflexivity)
                Hsecond ltac:(intros x []))
      as [_ H].
    destruct (H _ eq_refl) as (_ & H2 & H3 & _).
    split; [exact H2 | exact H3].
Defined.

(** The single-result probe of the UDP-only revision did finish on the
    first match: once a candidate has resolved it, nothing the transport or
    the timer does afterwards changes the value. *)
Lemma single_result_value_is_final (evs : list Timed) (st : SingleResult.State)
    (r : option Endpoint) :
  SingleResult.value st = Some r -> SingleResult.pc st = false ->
  SingleResult.value
    (eventLoop SingleResult.timer (fun _ => SingleResult.onTimer)
       SingleResult.deliver evs st) = Some r.
Proof.
  assert (Htimer : forall st', SingleResult.value st' = Some r ->
                               SingleResult.pc st' = false ->
                               SingleResult.value (SingleResult.onTimer st') = Some r
                               /\ SingleResult.pc (SingleResult.onTimer st') = false).
  { intros st' Hv Hp. unfold SingleResult.onTimer, SingleResult.resolve. simpl.
    rewrite Hv. simpl. split; [assumption || reflexivity | reflexivity]. }
  unfold eventLoop. revert st.
  induction evs as [|[t e] rest IH]; intros st Hv Hp; simpl.
  - destruct (SingleResult.timer st); [apply Htimer; assumption | exact Hv].
  - set (st1 := if (probeTimeout <=? t) && SingleResult.timer st
                then SingleResult.onTimer st else st).
    assert (H1 : SingleResult.value st1 = Some r /\ SingleResult.pc st1 = false).
    { unfold st1. destruct ((probeTimeout <=? t) && SingleResult.timer st);
        [apply Htimer; assumption | split; assumption]. }
    destruct H1 as [Hv1 Hp1]. apply IH.
    + destruct e as [e|]; simpl; [rewrite Hp1; exact Hv1|].
      unfold SingleResult.resolve. rewrite Hv1. exact Hv1.
    + destruct e as [e|]; simpl; [rewrite Hp1; exact Hp1|].
      unfold SingleResult.resolve. rewrite Hv1. exact Hp1.
Qed.

Lemma single_result_first_match_wins (t : Z) (c : string) (a : Endpoint)
    (rest : list Timed) :
  t < probeTimeout -> isUdpSrflx c = true -> parseCandidate c = Some a ->
  SingleResult.getMappedAddress ((t, Ice (Candidate c)) :: rest) = Some (Some a).
Proof.
  intros Ht Hudp Hparse. apply Z.leb_gt in Ht.
  unfold SingleResult.getMappedAddress, eventLoop. simpl. rewrite Ht. simpl.
  rewrite Hudp, Hparse.
  apply (single_result_value_is_final rest); reflexivity.
Qed.



(** ** Public reachability *)

Section PublicIPFacts.

Import DetectPublicIP.

Lemma advance_decided (evs : list Timed) (b : bool) :
  advance timeout (fun _ => finish false) deliver evs (decided b) = decided b.
Proof.
  induction evs as [|[t e] rest IH]; simpl; [reflexivity|].
  rewrite andb_false_r. destruct e as [e|]; simpl; exact IH.
Qed.

Lemma eventLoop_started (evs : list Timed) :
  eventLoop timeout (fun _ => finish false) deliver evs started
  = decided (verdict evs).
Proof.
  unfold eventLoop.
  induction evs as [|[t e] rest IH]; simpl; [reflexivity|].
  destruct (probeTimeout <=? t) eqn:Ht; simpl.
  - change (finish false started) with (decided false).
    assert (Hd : deliver t e (decided false) = decided false)
      by (destruct e as [e|]; reflexivity).
    rewrite Hd, advance_decided. reflexivity.
  - destruct e as [[c|]|]; simpl.
    + destruct (isUdpSrflx c); [|exact IH].
      change (finish (negb (isPrivateIP c)) started)
        with (decided (negb (isPrivateIP c))).
      rewrite advance_decided. reflexivity.
    + change (finish false started) with (decided false).
      rewrite advance_decided. reflexivity.
    + change (finish false started) with (decided false).
      rewrite advance_decided. reflexivity.
Qed.

(** The promise of [detectPublicIP] always resolves, and only the
    transport of the first configured server has a say. *)
Lemma detectPublicIP_eq (servers : list StunServer)
    (transport : StunServer -> list Timed) :
  detectPublicIP servers transport =
    Some match servers with
         | [] => false
         | server :: _ => verdict (transport server)
         end.
Proof.
  destruct servers as [|server rest]; [reflexivity|].
  unfold detectPublicIP. rewrite eventLoop_started. reflexivity.
Qed.

(** What [true] does guarantee: a server-reflexive UDP candidate from the
    first server, announced before the timeout, in which none of the
    markers occurs. *)
Lemma detectPublicIP_true (servers : list StunServer)
    (transport : StunServer -> list Timed) :
  detectPublicIP servers transport = Some true ->
  exists server rest t c,
    servers = server :: rest
    /\ In (t, Ice (Candidate c)) (transport server)
    /\ t < probeTimeout
    /\ isUdpSrflx c = true
    /\ isPrivateIP c = false.
Proof.
  rewrite detectPublicIP_eq. destruct servers as [|server rest]; [discriminate|].
  intros [= H]. exists server, rest.
  induction (transport server) as [|[t e] evs IH]; simpl in H; [discriminate|].
  destruct (probeTimeout <=? t) eqn:Ht; [discriminate|]. apply Z.leb_gt in Ht.
  destruct e as [[c|]|]; try discriminate.
  destruct (isUdpSrflx c) eqn:Hc.
  - exists t, c. repeat split; try assumption; [left; reflexivity|].
    destruct (isPrivateIP c); [discriminate | reflexivity].
  - destruct (IH H) as (t' & c' & _ & Hin & H').
    exists t', c'. split; [reflexivity|]. split; [right; exact Hin | exact H'].
Qed.

(** Any server-reflexive UDP candidate in whose text "10." occurs is
    called private, wherever in the text it occurs. *)
Lemma marker_10_anywhere (c : string) :
  JS.includes c "10." = true -> isPrivateIP c = true.
Proof.
  intros H. unfold isPrivateIP, markers. simpl. rewrite H.
  apply orb_true_r.
Qed.

End PublicIPFacts.

(** C9 at a failing input.  The first server reflects the loopback address
    127.0.0.2: [getPublicIPFromStun] calls that address private (it starts
    with "127."), while none of the markers of [detectPublicIP] occurs in
    the candidate (the loopback marker is the full "127.0.0.1"), so
    [detectPublicIP] resolves to [true].  It does the same on a unique
    local IPv6 address such as fd12:3456:789a:1::2, the IPv6 markers being
    the literal "fc00:" and "fd00:". *)
Theorem detectPublicIP_accepts_loopback_mapping :
  let c := "candidate:1 1 UDP 1685987327 127.0.0.2 37737 typ srflx raddr 198.51.100.7 rport 37737" in
  isUdpSrflx c = true
  /\ parseCandidate c = Some {| ep_ip := "127.0.0.2"; ep_port := 37737 |}
  /\ GetPublicIPFromStun.isPrivateIP "127.0.0.2" = true
  /\ DetectPublicIP.isPrivateIP c = false
  /\ DetectPublicIP.detectPublicIP stunServers
       (fun _ => [(120, Ice (Candidate c)); (300, Ice EndOfCandidates)])
     = Some true
  /\ DetectPublicIP.detectPublicIP stunServers
       (fun _ => [(120, Ice (Candidate
                    "candidate:1 1 UDP 1685987327 fd12:3456:789a:1::2 37737 typ srflx raddr 2001:db8::7 rport 37737"));
                  (300, Ice EndOfCandidates)])
     = Some true.
Proof. repeat split; vm_compute; reflexivity. Qed.

(** C10.  The private test of [detectPublicIP] looks for its markers
    anywhere in the candidate string.  The server-reflexive UDP candidate
    below carries the address 110.242.68.66, which is public by the
    prefix test of [getPublicIPFromStun] and does not start with "10.";
    yet "10." occurs in it (inside "110."), it is the only marker that
    does, the candidate is called private and [detectPublicIP] resolves to
    [false]. *)
Theorem substring_test_rejects_public_mapping :
  let c := "candidate:1 1 UDP 1685987327 110.242.68.66 37737 typ srflx raddr 198.51.100.7 rport 37737" in
  isUdpSrflx c = true
  /\ parseCandidate c = Some {| ep_ip := "110.242.68.66"; ep_port := 37737 |}
  /\ GetPublicIPFromStun.isPrivateIP "110.242.68.66" = false
  /\ JS.startsWith "110.242.68.66" "10." = false
  /\ JS.includes "110.242.68.66" "10." = true
  /\ filter (JS.includes c) DetectPublicIP.markers = ["10."]
  /\ DetectPublicIP.isPrivateIP c = true
  /\ DetectPublicIP.detectPublicIP stunServers
       (fun _ => [(120, Ice (Candidate c)); (300, Ice EndOfCandidates)])
     = Some false.
Proof. repeat split; vm_compute; reflexivity. Qed.

(** ** The path-quality prober *)

Section RoundingFacts.

Import SpeedTest.

Lemma round2_bounds (x : Q) :
  (0 <= x -> x <= 100 -> 0 <= round2 x /\ round2 x <= 100)%Q.
Proof.
  intros H0 H1. unfold round2, JS.round.
  assert (Hlo : 0 <= Qfloor (x * 100 + (1 # 2))).
  { change 0 with (Qfloor 0). apply Qfloor_resp_le.
    apply Qle_trans with (x * 100)%Q.
    - apply Qmult_le_0_compat; [exact H0 | discriminate].
    - rewrite <- (Qplus_0_r (x * 100)) at 1. apply Qplus_le_r. discriminate. }
  assert (Hhi : Qfloor (x * 100 + (1 # 2)) <= 10000).
  { change 10000 with (Qfloor (10000 + (1 # 2))). apply Qfloor_resp_le.
    apply Qplus_le_l. change (10000%Q) with (100 * 100)%Q.
    apply Qmult_le_compat_r; [exact H1 | discriminate]. }
  split.
  - apply Qle_shift_div_l; [reflexivity|]. rewrite Qmult_0_l.
    change 0%Q with (inject_Z 0). rewrite <- Zle_Qle. exact Hlo.
  - apply Qle_shift_div_r; [reflexivity|].
    change (100 * 100)%Q with (inject_Z 10000). rewrite <- Zle_Qle. exact Hhi.
Qed.


Lemma ratio_bounds (s r : Z) :
  0 < s -> 0 <= r <= s ->
  (0 <= inject_Z (s - r) / inject_Z s * 100
   /\ inject_Z (s - r) / inject_Z s * 100 <= 100)%Q.
Proof.
  intros Hs Hr.
  assert (Hs' : (0 < inject_Z s)%Q)
    by (change 0%Q with (inject_Z 0); rewrite <- Zlt_Qlt; exact Hs).
  assert (H0 : (0 <= inject_Z (s - r) / inject_Z s)%Q).
  { apply Qle_shift_div_l; [exact Hs'|]. rewrite Qmult_0_l.
    change 0%Q with (inject_Z 0). rewrite <- Zle_Qle. lia. }
  assert (H1 : (inject_Z (s - r) / inject_Z s <= 1)%Q).
  { apply Qle_shift_div_r; [exact Hs'|]. rewrite Qmult_1_l.
    rewrite <- Zle_Qle. lia. }
  split.
  - apply Qmult_le_0_compat; [exact H0 | discriminate].
  - change 100%Q with (1 * 100)%Q at 2.
    apply Qmult_le_compat_r; [exact H1 | discriminate].
Qed.

End RoundingFacts.

Section SpeedTestFacts.

Import SpeedTest.

Variable startTime : Z.
Variable target : MappedAddress.

Lemma rawPacketLoss_bounds (st : State) :
  0 <= received (packets (stats st)) <= sent (packets (stats st)) ->
  (0 <= rawPacketLoss st /\ rawPacketLoss st <= 100)%Q.
Proof.
  intros H. unfold rawPacketLoss.
  destruct (0 <? sent (packets (stats st))) eqn:Hs.
  - apply Z.ltb_lt in Hs. apply ratio_bounds; assumption.
  - split; discriminate.
Qed.

Lemma measured_sound (now : Z) (st : State) :
  0 <= received (packets (stats st)) <= sent (packets (stats st)) ->
  sound (measured startTime now target st).
Proof.
  intros H. split; [exact H|]. simpl.
  destruct (rawPacketLoss_bounds st H). apply round2_bounds; assumption.
Qed.

Lemma setupFailure_sound (now : Z) : sound (setupFailure startTime now target).
Proof. split; simpl; [lia | split; discriminate]. Qed.

Lemma finish_consistent (r : SpeedTestResult) (st : State) :
  consistent st -> sound r -> consistent (finish r st).
Proof.
  intros (H1 & H2 & H3 & H4 & H5 & H6) Hr.
  unfold finish. split_consistent; try assumption.
  - destruct (outcome st); discriminate.
  - intros r'. destruct (outcome st) as [old|] eqn:Ho; intros [= <-];
      [apply H6; reflexivity | exact Hr].
Qed.

(** Every handler keeps the state consistent. *)
Lemma step_consistent (e : Event) (st : State) :
  consistent st -> consistent (step startTime target e st).
Proof.
  intros H. pose proof H as (H1 & H2 & H3 & H4 & H5 & H6).
  destruct e as [now|now o| | |now ab echo|now ab| | |now|now]; unfold step.
  - destruct (pcs (handles st)); [|exact H]. unfold onopen.
    destruct (connectionEstablished st) eqn:Hc; [exact H|].
    split_consistent; auto.
  - destruct (sendInterval (handles st)) eqn:Hi; [|exact H].
    specialize (H4 eq_refl). unfold tick.
    destruct o; [destruct (dataChannel1 (handles st))
                | destruct (dataChannel1 (handles st)) |];
      split_consistent; rewrite ?length_app; simpl; auto; try lia;
      try discriminate.
  - split_consistent; auto. discriminate.
  - destruct (pcs (handles st)); [|exact H]. split_consistent; auto.
  - destruct (wire12 (wire st)) as [|data rest] eqn:Hw; [exact H|].
    destruct (dataChannel2 (handles st)); [|exact H].
    simpl in H2. unfold onmessage2.
    destruct (ab && (12 <=? byteLength data)); [destruct echo|];
      split_consistent; auto; try lia.
  - destruct (wire21 (wire st)) as [|data rest] eqn:Hw; [exact H|].
    destruct (dataChannel1 (handles st)); [|exact H].
    unfold onmessage1.
    destruct (ab && (12 <=? byteLength data)); split_consistent; auto; try lia.
  - split_consistent; auto. destruct (wire12 (wire st)); simpl in *; lia.
  - split_consistent; auto.
  - apply finish_consistent; [exact H | apply setupFailure_sound].
  - destruct (timeout (handles st)); [|exact H].
    apply finish_consistent; [exact H|]. apply measured_sound. lia.
Qed.

Lemma started_consistent : consistent (started startTime).
Proof. split_consistent; try lia; try discriminate. Qed.

Lemma run_consistent (schedule : list Event) :
  consistent (run startTime target schedule).
Proof.
  unfold run. generalize (started startTime) started_consistent.
  induction schedule as [|e schedule IH]; intros st Hst; simpl; [exact Hst|].
  apply IH. apply step_consistent. exact Hst.
Qed.



End SpeedTestFacts.

(** C4.  Whatever the schedule of opens, ticks, deliveries, echoes, losses,
    failures and timer firings, a result the speed test resolves to has
    [packetsReceived <= packetsSent] and a [packetLoss] between 0 and
    100. *)
Theorem speed_test_result_sound
    (startTime : Z) (target : MappedAddress)
    (schedule : list SpeedTest.Event) (r : SpeedTestResult) :
  SpeedTest.performSpeedTest startTime target schedule = Some r ->
  packetsReceived r <= packetsSent r
  /\ (0 <= packetLoss r /\ packetLoss r <= 100)%Q.
Proof.
  intros Hr.
  destruct (run_consistent startTime target schedule) as (_ & _ & _ & _ & _ & H6).
  destruct (H6 r Hr) as [[_ Hle] Hloss]. split; assumption.
Qed.

(** C4 on scenario E. *)
Lemma speed_test_result_sound_witness :
  let r := {| latency := 15; throughput := 3800 # 100; packetLoss := 500 # 100;
              connectionTime := 300; status := success;
              packetsSent := 80; packetsReceived := 76;
              mappedAddress := scenarioTarget |} in
  packetsReceived r <= packetsSent r
  /\ (0 <= packetLoss r /\ packetLoss r <= 100)%Q.
Proof.
  apply (speed_test_result_sound 0 scenarioTarget scenarioE).
  vm_compute. reflexivity.
Defined.


Section EchoFacts.

Import SpeedTest.

Variable startTime : Z.
Variable target : MappedAddress.








End EchoFacts.



(** ** The aggregate *)

Lemma testStunServers_none (servers : list StunServer)
    (connection : StunServer -> option Connection) :
  (forall s, In s servers ->
             match connection s with
             | Some result => conn_udp result = false /\ conn_tcp result = false
             | None => True
             end) ->
  testStunServers servers connection = [].
Proof.
  intros H. unfold testStunServers.
  induction servers as [|s servers IH]; simpl; [reflexivity|].
  pose proof (H s (or_introl eq_refl)) as Hs.
  destruct (connection s) as [result|].
  - destruct Hs as [Hu Ht]. unfold testStunServer. rewrite Hu, Ht. simpl.
    apply IH. intros s' Hs'. apply H. right. exact Hs'.
  - apply IH. intros s' Hs'. apply H. right. exact Hs'.
Qed.

(** C6.  If no configured server is reachable, a server being reachable
    when its connection test succeeds over UDP or over TCP, the network
    type is the firewalled label, whatever the public-IP test, the four
    classifications, the second round of connection tests and the speed
    tests say. *)
Theorem no_reachable_server_is_firewalled
    (servers : list StunServer) (connection : StunServer -> option Connection)
    (aw : Awaited) :
  reachableServers aw = testStunServers servers connection ->
  (forall s, In s servers ->
             match connection s with
             | Some result => conn_udp result = false /\ conn_tcp result = false
             | None => True
             end) ->
  net_type (detectNetworkType aw) = FirewalledBlocked
  /\ stunServersReachable (details (detectNetworkType aw)) = 0%nat.
Proof.
  intros Hreach Hnone.
  rewrite (testStunServers_none servers connection Hnone) in Hreach.
  unfold detectNetworkType. rewrite Hreach. split; reflexivity.
Qed.

(** Scenario C, with everything else pointing the other way: neither
    configured server answers the reachability test, while the public-IP
    test says yes and a classification is at hand. *)
Lemma no_reachable_server_is_firewalled_witness :
  let aw :=
    {| reachableServers := [];
       connectionResults := [ {| conn_udp := true; conn_tcp := true |} ];
       awaitedPublicIP := true;
       ipv4UdpResult := Some {| type := "Symmetric NAT"; mappedAddresses := [] |};
       ipv4TcpResult := None; ipv6UdpResult := None; ipv6TcpResult := None;
       awaitSpeedTest := fun _ => None |} in
  net_type (detectNetworkType aw) = FirewalledBlocked
  /\ stunServersReachable (details (detectNetworkType aw)) = 0%nat.
Proof.
  apply (no_reachable_server_is_firewalled stunServers
           (fun _ => Some {| conn_udp := false; conn_tcp := false |})).
  - reflexivity.
  - intros s _. split; reflexivity.
Defined.

(** The record that stands in for a rejected speed test is sound, so the
    results the aggregate lists are sound whenever the awaited ones are. *)
Lemma speedTestFailure_sound (mappedAddr : MappedAddress) :
  sound (speedTestFailure mappedAddr).
Proof. split; simpl; [lia | split; discriminate]. Qed.

Lemma aggregated_speed_tests_sound (aw : Awaited) :
  (forall m r, awaitSpeedTest aw m = Some r -> sound r) ->
  Forall sound (speedTests (details (detectNetworkType aw))).
Proof.
  intros H. unfold detectNetworkType. simpl.
  destruct ((0 <? length (reachableServers aw))%nat
            && (existsb conn_udp (connectionResults aw)
                || existsb conn_tcp (connectionResults aw)));
    [|constructor].
  apply Forall_forall. intros r Hr. apply in_map_iff in Hr.
  destruct Hr as (m & <- & _).
  destruct (awaitSpeedTest aw m) as [r|] eqn:Hm;
    [exact (H m r Hm) | apply speedTestFailure_sound].
Qed.

(** * Further properties of the code *)

(** ** The classifier and the collection of its input *)

Lemma allSameIP_elim (addresses : list Address) (x : string) (a : Address) :
  allSameIP addresses x = true -> In a addresses -> ip a = x.
Proof.
  intros H Ha. unfold allSameIP in H. rewrite forallb_forall in H.
  apply String.eqb_eq. auto.
Qed.

(** X1.  As soon as two of the addresses differ in their IP, the classifier
    answers "Unknown", whatever the ports and the size of the roster are,
    and hands the addresses back as evidence. *)
Theorem classify_distinct_ips
    (servers : list StunServer) (addresses : list Address)
    (p : Protocol) (v : IpVersion) :
  (exists a b, In a addresses /\ In b addresses /\ ip a <> ip b) ->
  detectNATTypeFromAddresses servers addresses p v =
    Some {| type := Indeterminate; mappedAddresses := addresses |}.
Proof.
  intros (a & b & Ha & Hb & Hab).
  destruct addresses as [|first rest]; [destruct Ha|].
  unfold detectNATTypeFromAddresses.
  destruct (allSameIP (first :: rest) (ip first)) eqn:Hip; [|reflexivity].
  exfalso. apply Hab.
  rewrite (allSameIP_elim _ _ a Hip Ha), (allSameIP_elim _ _ b Hip Hb).
  reflexivity.
Qed.

Lemma classify_distinct_ips_witness :
  detectNATTypeFromAddresses stunServers
    [ {| ip := "203.0.113.5"; port := 40000; server := "stun.miwifi.com" |};
      {| ip := "198.51.100.9"; port := 40000; server := "stun.l.google.com" |} ]
    UDP IPv4
  = Some {| type := Indeterminate;
            mappedAddresses :=
              [ {| ip := "203.0.113.5"; port := 40000; server := "stun.miwifi.com" |};
                {| ip := "198.51.100.9"; port := 40000; server := "stun.l.google.com" |} ] |}.
Proof.
  apply classify_distinct_ips.
  eexists; eexists; split; [left; reflexivity|].
  split; [right; left; reflexivity|]. simpl. discriminate.
Defined.

Lemma allSameIP_transfer (l l' : list Address) (x : string) (first' : Address) :
  Permutation l l' -> In first' l' ->
  allSameIP l x = true -> allSameIP l' (ip first') = true.
Proof.
  intros HP Hf H. apply allSameIP_intro. intros a Ha.
  apply Permutation_sym in HP.
  rewrite (allSameIP_elim l x a H (Permutation_in _ HP Ha)).
  rewrite (allSameIP_elim l x first' H (Permutation_in _ HP Hf)).
  reflexivity.
Qed.

Lemma allSamePort_transfer (l l' : list Address) (x : Z) (first' : Address) :
  Permutation l l' -> In first' l' ->
  allSamePort l x = true -> allSamePort l' (port first') = true.
Proof.
  intros HP Hf H. apply allSamePort_intro. intros a Ha.
  apply Permutation_sym in HP.
  rewrite (allSamePort_elim l x a H (Permutation_in _ HP Ha)).
  rewrite (allSamePort_elim l x first' H (Permutation_in _ HP Hf)).
  reflexivity.
Qed.

Lemma allSameIP_perm (first first' : Address) (rest rest' : list Address) :
  Permutation (first :: rest) (first' :: rest') ->
  allSameIP (first :: rest) (ip first) = allSameIP (first' :: rest') (ip first').
Proof.
  intros HP. apply eq_iff_eq_true. split.
  - apply (allSameIP_transfer _ _ _ first' HP). left; reflexivity.
  - apply (allSameIP_transfer _ _ _ first (Permutation_sym HP)). left; reflexivity.
Qed.

Lemma allSamePort_perm (first first' : Address) (rest rest' : list Address) :
  Permutation (first :: rest) (first' :: rest') ->
  allSamePort (first :: rest) (port first)
  = allSamePort (first' :: rest') (port first').
Proof.
  intros HP. apply eq_iff_eq_true. split.
  - apply (allSamePort_transfer _ _ _ first' HP). left; reflexivity.
  - apply (allSamePort_transfer _ _ _ first (Permutation_sym HP)). left; reflexivity.
Qed.

(** X2.  The category does not depend on the order in which the servers'
    addresses are listed (nor on the protocol and family tags, which only
    reach the log): the classifier compares every address with the first
    one, but on any reordering of the list it returns the same category. *)
Theorem classify_order_independent
    (servers : list StunServer) (addresses addresses' : list Address)
    (p p' : Protocol) (v v' : IpVersion) :
  Permutation addresses addresses' ->
  option_map type (detectNATTypeFromAddresses servers addresses p v)
  = option_map type (detectNATTypeFromAddresses servers addresses' p' v').
Proof.
  intros HP.
  destruct addresses as [|first rest], addresses' as [|first' rest'].
  - reflexivity.
  - apply Permutation_nil in HP. discriminate.
  - apply Permutation_sym, Permutation_nil in HP. discriminate.
  - unfold detectNATTypeFromAddresses.
    rewrite (allSameIP_perm first first' rest rest' HP),
            (allSamePort_perm first first' rest rest' HP),
            (Permutation_length HP).
    destruct (allSameIP (first' :: rest') (ip first')); reflexivity.
Qed.

Lemma classify_order_independent_witness :
  option_map type
    (detectNATTypeFromAddresses stunServers
       [ {| ip := "203.0.113.5"; port := 40000; server := "stun.miwifi.com" |};
         {| ip := "203.0.113.5"; port := 51000; server := "stun.l.google.com" |} ]
       UDP IPv4)
  = option_map type
      (detectNATTypeFromAddresses stunServers
         [ {| ip := "203.0.113.5"; port := 51000; server := "stun.l.google.com" |};
           {| ip := "203.0.113.5"; port := 40000; server := "stun.miwifi.com" |} ]
         TCP IPv6).
Proof.
  apply classify_order_independent. apply perm_swap.
Defined.

Lemma collect_origin
    (servers : list StunServer) (slots : list (option Endpoint)) (a : Address) :
  In a (collect servers slots) <->
  exists i e s,
    nth_error slots i = Some (Some e) /\ nth_error servers i = Some s
    /\ a = {| ip := ep_ip e; port := ep_port e; server := name s |}.
Proof.
  unfold collect. revert servers.
  induction slots as [|o slots IH]; intros [|s servers]; simpl.
  - split; [intros [] | intros (i & e & s & H & _); destruct i; discriminate].
  - split; [intros [] | intros (i & e & s' & H & _); destruct i; discriminate].
  - split; [intros [] | intros (i & e & s' & _ & H & _); destruct i; discriminate].
  - rewrite in_app_iff, IH. split.
    + intros [H | (i & e & s' & H1 & H2 & H3)].
      * destruct o as [e|]; [|destruct H]. destruct H as [<-|[]].
        exists 0%nat, e, s. repeat split.
      * exists (S i), e, s'. repeat split; assumption.
    + intros (i & e & s' & H1 & H2 & H3). destruct i as [|i]; simpl in *.
      * left. injection H1 as ->. injection H2 as ->. left. symmetry. exact H3.
      * right. exists i, e, s'. repeat split; assumption.
Qed.

Lemma sorted_shift (positions : list nat) :
  StronglySorted lt positions -> StronglySorted lt (map S positions).
Proof.
  induction 1 as [|i positions _ IH Hall]; simpl; constructor; [exact IH|].
  apply Forall_forall. intros j Hj. apply in_map_iff in Hj.
  destruct Hj as (k & <- & Hk). rewrite Forall_forall in Hall.
  apply -> Nat.succ_lt_mono. apply Hall. exact Hk.
Qed.

Lemma Forall2_shift {A : Type} (R : nat -> A -> Prop) (positions : list nat)
    (l : list A) :
  Forall2 (fun i => R (S i)) positions l -> Forall2 R (map S positions) l.
Proof. induction 1; simpl; constructor; assumption. Qed.

(** X3.  What the detectors hand to the classifier: exactly one address
    for each position of the roster whose probe filled the slot, in roster
    order, carrying the slot's IP and port and the name of the server at
    that position.  [positions] lists the filled positions, each once and
    in increasing order, and the collected addresses are, one for one,
    those of these positions. *)
Theorem collect_attribution
    (servers : list StunServer) (slots : list (option Endpoint)) :
  exists positions : list nat,
    StronglySorted lt positions
    /\ (forall i, In i positions <->
                  exists e s, nth_error slots i = Some (Some e)
                              /\ nth_error servers i = Some s)
    /\ Forall2
         (fun i a =>
            exists e s,
              nth_error slots i = Some (Some e) /\ nth_error servers i = Some s
              /\ a = {| ip := ep_ip e; port := ep_port e; server := name s |})
         positions (collect servers slots).
Proof.
  unfold collect. revert servers.
  induction slots as [|o slots IH]; intros [|s servers].
  - exists []. simpl. split; [constructor | split; [|constructor]].
    intros i. split; [intros [] | intros (e & s & H & _)].
    destruct i; discriminate.
  - exists []. simpl. split; [constructor | split; [|constructor]].
    intros i. split; [intros [] | intros (e & s' & H & _)].
    destruct i; discriminate.
  - exists []. simpl. split; [constructor | split; [|constructor]].
    intros i. split; [intros [] | intros (e & s' & _ & H)].
    destruct i; discriminate.
  - destruct (IH servers) as (positions & Hsorted & Hin & Hall).
    assert (Hshift : forall i, In i (map S positions) <->
                       exists j, i = S j /\ In j positions).
    { intros i. rewrite in_map_iff. split; intros (j & H1 & H2); exists j;
        split; auto. }
    destruct o as [e|]; simpl.
    + exists (0%nat :: map S positions). split; [|split].
      * constructor; [apply sorted_shift; exact Hsorted|].
        apply Forall_forall. intros i Hi. apply Hshift in Hi.
        destruct Hi as (j & -> & _). apply Nat.lt_0_succ.
      * intros i. simpl. rewrite Hshift. split.
        -- intros [<- | (j & -> & Hj)]; [exists e, s; split; reflexivity|].
           apply Hin in Hj. exact Hj.
        -- destruct i as [|j]; [left; reflexivity|]. intros H. right.
           exists j. split; [reflexivity|]. apply Hin. exact H.
      * constructor; [exists e, s; repeat split|].
        apply Forall2_shift. exact Hall.
    + exists (map S positions). split; [|split].
      * apply sorted_shift. exact Hsorted.
      * intros i. rewrite Hshift. split.
        -- intros (j & -> & Hj). apply Hin in Hj. exact Hj.
        -- destruct i as [|j]; [intros (e & s' & H & _); discriminate|].
           intros H. exists j. split; [reflexivity|]. apply Hin. exact H.
      * apply Forall2_shift. exact Hall.
Qed.

(** ** The rendezvous probe, continued *)

Lemma store_origin (c : string) (p : Protocol) (v : IpVersion) (e : Endpoint)
    (ads : Addresses) :
  slot p v (store c ads) = Some e ->
  slotOf c = Some (p, v, e) \/ slot p v ads = Some e.
Proof.
  intros H. destruct (slotOf c) as [[[p' v'] a']|] eqn:Hc.
  - destruct p, p', v, v';
      try (right; rewrite <- H; symmetry; apply store_miss;
           intros a Ha; rewrite Hc in Ha; discriminate);
      left; rewrite (store_hit c _ _ a' ads Hc) in H; congruence.
  - right. rewrite <- H. symmetry. apply store_miss.
    intros a Ha. rewrite Hc in Ha. discriminate.
Qed.

Lemma stored_origin (cs : list string) (p : Protocol) (v : IpVersion)
    (e : Endpoint) (ads : Addresses) :
  slot p v (stored cs ads) = Some e ->
  (exists c, In c cs /\ slotOf c = Some (p, v, e)) \/ slot p v ads = Some e.
Proof.
  unfold stored. revert ads.
  induction cs as [|c cs IH]; intros ads H; simpl in *; [right; exact H|].
  destruct (IH _ H) as [(c' & Hin & Hc') | Hs].
  - left. exists c'. split; [right; exact Hin | exact Hc'].
  - destruct (store_origin _ _ _ _ _ Hs) as [Hc | Ha].
    + left. exists c. split; [left; reflexivity | exact Hc].
    + right. exact Ha.
Qed.

Lemma parseCandidate_valid (c : string) (e : Endpoint) :
  parseCandidate c = Some e -> ep_ip e <> "" /\ 0 < ep_port e.
Proof.
  unfold parseCandidate.
  destruct (6 <=? length (JS.split " " c))%nat; [|discriminate].
  destruct (JS.parseInt (nth 5 (JS.split " " c) "")) as [n|]; [|discriminate].
  destruct (negb (nth 4 (JS.split " " c) "" =? "")%string) eqn:Hip; [|discriminate].
  destruct (0 <? n) eqn:Hn; [|discriminate].
  intros [= <-]. simpl. split.
  - apply negb_true_iff, String.eqb_neq in Hip. exact Hip.
  - apply Z.ltb_lt. exact Hn.
Qed.

Lemma slotOf_valid (c : string) (p : Protocol) (v : IpVersion) (e : Endpoint) :
  slotOf c = Some (p, v, e) ->
  parseCandidate c = Some e /\ v = family e
  /\ JS.includes c "typ srflx" = true
  /\ JS.includes c "TCP" = match p with TCP => true | UDP => false end.
Proof.
  unfold slotOf, isUdpSrflx, isTcpSrflx.
  destruct (JS.includes c "typ srflx"), (JS.includes c "UDP"),
    (JS.includes c "TCP"), (parseCandidate c) as [a|]; simpl;
    try discriminate; intros [= <- <- <-]; repeat split.
Qed.

(** X4.  Whatever the transport emits, a slot of the probe's answer is
    either empty or holds an endpoint with a non-empty IP and a port above
    zero, whose IP contains a colon exactly when the slot is an IPv6 one,
    and which the transport announced before the timeout in a
    server-reflexive candidate of the slot's protocol: "TCP" occurs in
    that candidate exactly when the slot is a TCP one. *)
Theorem probe_slots_are_well_formed
    (evs : list Timed) (p : Protocol) (v : IpVersion) (e : Endpoint) :
  slot p v (addresses (getMappedAddress evs)) = Some e ->
  ep_ip e <> "" /\ 0 < ep_port e
  /\ isIPv6 (ep_ip e) = match v with IPv6 => true | IPv4 => false end
  /\ exists t c,
       In (t, Ice (Candidate c)) evs /\ t < probeTimeout
       /\ parseCandidate c = Some e
       /\ JS.includes c "typ srflx" = true
       /\ JS.includes c "TCP" = match p with TCP => true | UDP => false end.
Proof.
  rewrite getMappedAddress_eq. simpl. intros H.
  destruct (stored_origin _ _ _ _ _ H) as [(c & Hin & Hc) | Hnone];
    [|destruct p, v; discriminate].
  destruct (slotOf_valid _ _ _ _ Hc) as (Hparse & Hv & Hs & Ht).
  destruct (parseCandidate_valid _ _ Hparse) as [Hip Hport].
  split; [exact Hip|]. split; [exact Hport|]. split.
  - subst v. unfold family. destruct (isIPv6 (ep_ip e)); reflexivity.
  - destruct (heard_in _ _ Hin) as (t & Hev & Hlt).
    exists t, c. repeat split; assumption.
Qed.

Lemma probe_slots_are_well_formed_witness :
  ep_ip {| ep_ip := "2001:db8::5"; ep_port := 40000 |} <> ""
  /\ 0 < ep_port {| ep_ip := "2001:db8::5"; ep_port := 40000 |}
  /\ isIPv6 (ep_ip {| ep_ip := "2001:db8::5"; ep_port := 40000 |}) = true
  /\ exists t c,
       In (t, Ice (Candidate c))
          [(100, Ice (Candidate "candidate:1 1 TCP 1685987327 2001:db8::5 40000 typ srflx raddr :: rport 0 tcptype active"));
           (300, Ice EndOfCandidates)]
       /\ t < probeTimeout
       /\ parseCandidate c = Some {| ep_ip := "2001:db8::5"; ep_port := 40000 |}
       /\ JS.includes c "typ srflx" = true
       /\ JS.includes c "TCP" = true.
Proof.
  apply (probe_slots_are_well_formed
           [(100, Ice (Candidate "candidate:1 1 TCP 1685987327 2001:db8::5 40000 typ srflx raddr :: rport 0 tcptype active"));
            (300, Ice EndOfCandidates)] TCP IPv6).
  vm_compute. reflexivity.
Defined.

(** The same, as a lemma for later use. *)
Lemma probe_slot_origin
    (evs : list Timed) (p : Protocol) (v : IpVersion) (e : Endpoint) :
  slot p v (addresses (getMappedAddress evs)) = Some e ->
  ep_ip e <> "" /\ 0 < ep_port e
  /\ isIPv6 (ep_ip e) = match v with IPv6 => true | IPv4 => false end
  /\ exists t c,
       In (t, Ice (Candidate c)) evs /\ t < probeTimeout
       /\ parseCandidate c = Some e
       /\ JS.includes c "typ srflx" = true
       /\ JS.includes c "TCP" = match p with TCP => true | UDP => false end.
Proof.
  rewrite getMappedAddress_eq. simpl. intros H.
  destruct (stored_origin _ _ _ _ _ H) as [(c & Hin & Hc) | Hnone];
    [|destruct p, v; discriminate].
  destruct (slotOf_valid _ _ _ _ Hc) as (Hparse & Hv & Hs & Ht).
  destruct (parseCandidate_valid _ _ Hparse) as [Hip Hport].
  split; [exact Hip|]. split; [exact Hport|]. split.
  - subst v. unfold family. destruct (isIPv6 (ep_ip e)); reflexivity.
  - destruct (heard_in _ _ Hin) as (t & Hev & Hlt).
    exists t, c. repeat split; assumption.
Qed.

Lemma heard_all_late (late : list Timed) :
  Forall (fun x => probeTimeout <= fst x) late ->
  heard late = [] /\ closing late = probeTimeout.
Proof.
  intros H. destruct H as [|[t e] late Ht _]; simpl; [split; reflexivity|].
  simpl in Ht. apply Z.leb_le in Ht. rewrite Ht. split; reflexivity.
Qed.

Lemma heard_app_late (evs late : list Timed) :
  Forall (fun x => probeTimeout <= fst x) late ->
  heard (evs ++ late) = heard evs /\ closing (evs ++ late) = closing evs.
Proof.
  intros H. induction evs as [|[t e] evs [IH1 IH2]]; simpl.
  - apply heard_all_late. exact H.
  - destruct (probeTimeout <=? t); [split; reflexivity|].
    destruct e as [[c|]|]; try (split; reflexivity).
    rewrite IH1, IH2. split; reflexivity.
Qed.

(** X5.  Events that are due at or after the timeout are discarded: a
    probe answers the same, at the same moment, whether or not the
    transport goes on emitting them. *)
Theorem probe_discards_late_events (evs late : list Timed) :
  Forall (fun x => probeTimeout <= fst x) late ->
  getMappedAddress (evs ++ late) = getMappedAddress evs.
Proof.
  intros H. rewrite !getMappedAddress_eq.
  destruct (heard_app_late evs late H) as [-> ->]. reflexivity.
Qed.

Lemma probe_discards_late_events_witness :
  getMappedAddress
    ([(100, Ice (Candidate "candidate:1 1 UDP 1685987327 203.0.113.5 40000 typ srflx raddr 0.0.0.0 rport 0"))]
     ++ [(5000, Ice (Candidate "candidate:1 1 UDP 1685987327 203.0.113.5 51000 typ srflx raddr 0.0.0.0 rport 0"));
         (5200, Ice EndOfCandidates)])
  = getMappedAddress
      [(100, Ice (Candidate "candidate:1 1 UDP 1685987327 203.0.113.5 40000 typ srflx raddr 0.0.0.0 rport 0"))].
Proof.
  apply probe_discards_late_events.
  repeat constructor; simpl; unfold probeTimeout; lia.
Defined.

Lemma heard_ignorable (evs : list Timed) (ads : Addresses) :
  chronological evs ->
  stored (heard (filter (fun x => negb (ignorable x)) evs)) ads
  = stored (heard evs) ads
  /\ closing (filter (fun x => negb (ignorable x)) evs) = closing evs.
Proof.
  set (keep := fun x => negb (ignorable x)).
  intros Hs. revert ads.
  induction evs as [|[t e] evs IH]; intros ads; [split; reflexivity|].
  apply StronglySorted_inv in Hs. destruct Hs as [Hs Hall].
  specialize (IH Hs). cbn [filter].
  destruct (probeTimeout <=? t) eqn:Ht.
  - assert (Hlate : heard (filter keep evs) = []
                    /\ closing (filter keep evs) = probeTimeout).
    { apply heard_all_late. apply Z.leb_le in Ht.
      apply Forall_forall. intros x Hx. apply filter_In in Hx.
      rewrite Forall_forall in Hall. specialize (Hall x (proj1 Hx)).
      simpl in Hall. lia. }
    destruct (keep (t, e)); cbn [heard closing]; rewrite ?Ht;
      [split; reflexivity|].
    destruct Hlate as [H1 H2]. rewrite H1, H2. split; reflexivity.
  - destruct e as [[c|]|].
    + change (keep (t, Ice (Candidate c))) with (negb (negb (accepted c))).
      rewrite negb_involutive.
      destruct (accepted c) eqn:Hc; cbn [heard closing]; rewrite ?Ht.
      * destruct (IH (store c ads)) as [H1 H2]. split; [exact H1 | exact H2].
      * destruct (IH ads) as [H1 H2]. split; [|exact H2].
        rewrite H1. unfold stored. simpl.
        rewrite (store_ignored c ads Hc). reflexivity.
    + change (keep (t, Ice EndOfCandidates)) with true.
      cbn [heard closing]. rewrite Ht. split; reflexivity.
    + change (keep (t, OfferRejected)) with true.
      cbn [heard closing]. rewrite Ht. split; reflexivity.
Qed.

(** X6.  Announcements the handler does not accept (host and relay
    candidates, server-reflexive ones that fail the validation, empty
    candidate strings) have no effect on a probe: on a chronological
    stream, dropping them changes neither the answer nor the moment it is
    given. *)
Theorem probe_ignores_other_candidates (evs : list Timed) :
  chronological evs ->
  getMappedAddress (filter (fun x => negb (ignorable x)) evs)
  = getMappedAddress evs.
Proof.
  intros Hs. rewrite !getMappedAddress_eq.
  destruct (heard_ignorable evs noAddresses Hs) as [-> ->]. reflexivity.
Qed.

Lemma probe_ignores_other_candidates_witness :
  getMappedAddress
    (filter (fun x => negb (ignorable x))
       [(40, Ice (Candidate "candidate:0 1 UDP 2122252543 192.168.1.20 52311 typ host"));
        (100, Ice (Candidate "candidate:1 1 UDP 1685987327 203.0.113.5 40000 typ srflx raddr 0.0.0.0 rport 0"));
        (150, Ice (Candidate "candidate:2 1 UDP 41885439 198.51.100.3 61000 typ relay raddr 0.0.0.0 rport 0"));
        (300, Ice EndOfCandidates)])
  = getMappedAddress
      [(40, Ice (Candidate "candidate:0 1 UDP 2122252543 192.168.1.20 52311 typ host"));
       (100, Ice (Candidate "candidate:1 1 UDP 1685987327 203.0.113.5 40000 typ srflx raddr 0.0.0.0 rport 0"));
       (150, Ice (Candidate "candidate:2 1 UDP 41885439 198.51.100.3 61000 typ relay raddr 0.0.0.0 rport 0"));
       (300, Ice EndOfCandidates)].
Proof.
  apply probe_ignores_other_candidates.
  repeat (constructor; simpl; try lia).
Defined.

(** ** The connection test *)

Lemma tcp_is_not_udp (c : string) : isTcpSrflx c = true -> isUdpSrflx c = false.
Proof.
  unfold isTcpSrflx, isUdpSrflx.
  destruct (JS.includes c "typ srflx"), (JS.includes c "UDP"),
    (JS.includes c "TCP"); simpl; congruence.
Qed.

Lemma advance_tested (evs : list Timed) (u t : bool) :
  advance TestStunServerConnection.timeout
    (fun _ => TestStunServerConnection.finish)
    TestStunServerConnection.deliver evs (tested u t) = tested u t.
Proof.
  induction evs as [|[t' e] rest IH]; simpl; [reflexivity|].
  rewrite andb_false_r. destruct e as [e|]; simpl; exact IH.
Qed.

Lemma eventLoop_testing (evs : list Timed) (u t : bool) :
  eventLoop TestStunServerConnection.timeout
    (fun _ => TestStunServerConnection.finish)
    TestStunServerConnection.deliver evs (testing u t)
  = tested (u || existsb isUdpSrflx (heard evs))
           (t || existsb isTcpSrflx (heard evs)).
Proof.
  unfold eventLoop. revert u t.
  induction evs as [|[t' e] rest IH]; intros u t; simpl.
  - rewrite !orb_false_r. reflexivity.
  - destruct (probeTimeout <=? t') eqn:Ht; simpl.
    + change (TestStunServerConnection.finish (testing u t)) with (tested u t).
      assert (Hd : TestStunServerConnection.deliver t' e (tested u t) = tested u t)
        by (destruct e as [e|]; reflexivity).
      rewrite Hd, advance_tested, !orb_false_r. reflexivity.
    + destruct e as [[c|]|]; simpl.
      * destruct (isUdpSrflx c) eqn:Hu.
        -- change {| TestStunServerConnection.settled := None;
                     TestStunServerConnection.pc := true;
                     TestStunServerConnection.timeout := true;
                     TestStunServerConnection.udpConnected := true;
                     TestStunServerConnection.tcpConnected := t |}
             with (testing true t).
           rewrite IH. simpl. rewrite orb_true_r.
           destruct (isTcpSrflx c) eqn:Htc;
             [rewrite (tcp_is_not_udp c Htc) in Hu; discriminate|].
           reflexivity.
        -- destruct (isTcpSrflx c) eqn:Htc.
           ++ change {| TestStunServerConnection.settled := None;
                        TestStunServerConnection.pc := true;
                        TestStunServerConnection.timeout := true;
                        TestStunServerConnection.udpConnected := u;
                        TestStunServerConnection.tcpConnected := true |}
                with (testing u true).
              rewrite IH. simpl. rewrite orb_true_r. reflexivity.
           ++ change (testing u t) with (testing u t). rewrite IH. reflexivity.
      * change (TestStunServerConnection.finish (testing u t)) with (tested u t).
        rewrite advance_tested, !orb_false_r. reflexivity.
      * change (TestStunServerConnection.finish (testing u t)) with (tested u t).
        rewrite advance_tested, !orb_false_r. reflexivity.
Qed.


(** X8.  A server from which a probe obtains a mapping is one the
    connection test calls reachable: on the same stream of events, a
    filled UDP slot comes with the UDP flag, a filled TCP slot with the TCP
    flag. *)
Theorem mapping_implies_reachable
    (evs : list Timed) (p : Protocol) (v : IpVersion) (e : Endpoint) :
  slot p v (addresses (getMappedAddress evs)) = Some e ->
  exists r,
    TestStunServerConnection.testStunServerConnection evs = Some r
    /\ testStunServer r = true
    /\ match p with UDP => conn_udp r | TCP => conn_tcp r end = true.
Proof.
  rewrite getMappedAddress_eq. simpl. intros H.
  destruct (stored_origin _ _ _ _ _ H) as [(c & Hin & Hc) | Hnone];
    [|destruct p, v; discriminate].
  unfold TestStunServerConnection.testStunServerConnection.
  change TestStunServerConnection.started with (testing false false).
  rewrite eventLoop_testing. simpl. eexists. split; [reflexivity|].
  assert (Hflag : match p with
                  | UDP => existsb isUdpSrflx (heard evs)
                  | TCP => existsb isTcpSrflx (heard evs)
                  end = true).
  { unfold slotOf in Hc.
    destruct (isUdpSrflx c) eqn:Hu.
    - destruct (parseCandidate c); [|discriminate]. injection Hc as <- _ _.
      apply existsb_exists. exists c. split; assumption.
    - destruct (isTcpSrflx c) eqn:Htc; [|discriminate].
      destruct (parseCandidate c); [|discriminate]. injection Hc as <- _ _.
      apply existsb_exists. exists c. split; assumption. }
  unfold testStunServer. simpl. split; [|exact Hflag].
  destruct p; rewrite Hflag; [reflexivity | apply orb_true_r].
Qed.

Lemma mapping_implies_reachable_witness :
  exists r,
    TestStunServerConnection.testStunServerConnection
      [(100, Ice (Candidate "candidate:1 1 UDP 1685987327 203.0.113.5 40000 typ srflx raddr 0.0.0.0 rport 0"))]
    = Some r
    /\ testStunServer r = true
    /\ conn_udp r = true.
Proof.
  apply (mapping_implies_reachable
           [(100, Ice (Candidate "candidate:1 1 UDP 1685987327 203.0.113.5 40000 typ srflx raddr 0.0.0.0 rport 0"))]
           UDP IPv4 {| ep_ip := "203.0.113.5"; ep_port := 40000 |}).
  vm_compute. reflexivity.
Defined.

(** ** Strings *)

Local Open Scope string_scope.

Lemma append_assoc' (a b c : string) : (a ++ b) ++ c = a ++ b ++ c.
Proof. induction a as [|x a IH]; simpl; [reflexivity | rewrite IH; reflexivity]. Qed.

Lemma prefix_app (p r : string) : String.prefix p (p ++ r) = true.
Proof.
  induction p as [|x p IH]; simpl; [destruct r; reflexivity|].
  destruct (ascii_dec x x); [exact IH | congruence].
Qed.

Lemma prefix_elim (p s : string) :
  String.prefix p s = true -> exists r, s = p ++ r.
Proof.
  revert s. induction p as [|x p IH]; intros s.
  - intros _. exists s. reflexivity.
  - destruct s as [|y s]; simpl; [intros H; discriminate H|].
    destruct (ascii_dec x y) as [E|]; [subst y|intros H; discriminate H].
    intros H. destruct (IH s H) as [r ->]. exists r. reflexivity.
Qed.

Lemma includes_unfold (s sub : string) :
  JS.includes s sub =
  (String.prefix sub s
   || match s with EmptyString => false | String _ s' => JS.includes s' sub end).
Proof.
  destruct s as [|c s]; simpl.
  - destruct (String.prefix sub ""); reflexivity.
  - destruct (String.prefix sub (String c s)); reflexivity.
Qed.

Lemma includes_intro (a sub b : string) : JS.includes (a ++ sub ++ b) sub = true.
Proof.
  induction a as [|x a IH]; rewrite includes_unfold.
  - simpl. rewrite prefix_app. reflexivity.
  - simpl. rewrite IH. apply orb_true_r.
Qed.

Lemma includes_elim (s sub : string) :
  JS.includes s sub = true -> exists a b, s = a ++ sub ++ b.
Proof.
  induction s as [|x s IH]; rewrite includes_unfold; intros H.
  - rewrite orb_false_r in H. destruct (prefix_elim _ _ H) as [r Hr].
    exists "", r. exact Hr.
  - apply orb_true_iff in H. destruct H as [H|H].
    + destruct (prefix_elim _ _ H) as [r Hr]. exists "", r. exact Hr.
    + destruct (IH H) as (a & b & ->). exists (String x a), b. reflexivity.
Qed.

Lemma split_head (sep : ascii) (s : string) :
  exists h t b, JS.split sep s = h :: t /\ s = h ++ b.
Proof.
  induction s as [|c s (h & t & b & IH & Hs)]; simpl.
  - exists "", [], "". split; reflexivity.
  - destruct (Ascii.eqb c sep).
    + exists "", (JS.split sep s), (String c s). split; reflexivity.
    + rewrite IH. exists (String c h), t, b. split; [reflexivity|].
      simpl. rewrite <- Hs. reflexivity.
Qed.

Lemma split_part (sep : ascii) (s part : string) :
  In part (JS.split sep s) -> exists a b, s = a ++ part ++ b.
Proof.
  induction s as [|c s IH]; simpl.
  - intros [<-|[]]. exists "", "". reflexivity.
  - destruct (Ascii.eqb c sep).
    + intros [<-|H].
      * exists "", (String c s). reflexivity.
      * destruct (IH H) as (a & b & ->). exists (String c a), b. reflexivity.
    + destruct (split_head sep s) as (h & t & b & Hsplit & Hs).
      rewrite Hsplit in *. intros [<-|H].
      * exists "", b. simpl. rewrite <- Hs. reflexivity.
      * destruct (IH (or_intror H)) as (a & b' & ->).
        exists (String c a), b'. reflexivity.
Qed.

Lemma parseCandidate_ip_occurs (c : string) (e : Endpoint) :
  parseCandidate c = Some e -> exists a b, c = a ++ ep_ip e ++ b.
Proof.
  unfold parseCandidate.
  destruct (6 <=? length (JS.split " " c))%nat eqn:Hlen; [|discriminate].
  destruct (JS.parseInt (nth 5 (JS.split " " c) "")) as [n|]; [|discriminate].
  destruct (negb (nth 4 (JS.split " " c) "" =? "")%string && (0 <? n)%Z)%bool; [|discriminate].
  intros [= <-]. simpl. apply (split_part " "). apply nth_In.
  apply Nat.leb_le in Hlen. lia.
Qed.

Lemma shared_prefixes (p : string) :
  In p GetPublicIPFromStun.prefixes -> p = "127." \/ In p DetectPublicIP.markers.
Proof.
  unfold GetPublicIPFromStun.prefixes, DetectPublicIP.markers. simpl.
  intuition (subst; auto 40).
Qed.


(** ** Public reachability, continued *)

(** The marker test of [detectPublicIP] calls private every candidate
    whose address the prefix test of [getPublicIPFromStun] calls private,
    loopback addresses apart. *)
Lemma marker_test_covers_prefix_test (c : string) (e : Endpoint) :
  parseCandidate c = Some e ->
  GetPublicIPFromStun.isPrivateIP (ep_ip e) = true ->
  JS.startsWith (ep_ip e) "127." = false ->
  DetectPublicIP.isPrivateIP c = true.
Proof.
  intros Hparse Hpriv Hloop.
  destruct (parseCandidate_ip_occurs c e Hparse) as (a & b & Hc).
  assert (Hmarker : exists m r, In m DetectPublicIP.markers /\ ep_ip e = m ++ r).
  { unfold GetPublicIPFromStun.isPrivateIP in Hpriv.
    apply orb_true_iff in Hpriv. destruct Hpriv as [Hpriv|Hpriv];
      [apply orb_true_iff in Hpriv; destruct Hpriv as [Hpriv|Hpriv]|].
    - apply existsb_exists in Hpriv. destruct Hpriv as (p & Hin & Hp).
      destruct (shared_prefixes p Hin) as [->|Hm].
      + unfold JS.startsWith in *. congruence.
      + destruct (prefix_elim _ _ Hp) as [r Hr]. exists p, r. split; assumption.
    - apply String.eqb_eq in Hpriv. exists "0.0.0.0", "". rewrite Hpriv.
      split; [unfold DetectPublicIP.markers; simpl; auto 40 | reflexivity].
    - apply String.eqb_eq in Hpriv. exists "255.255.255.255", "". rewrite Hpriv.
      split; [unfold DetectPublicIP.markers; simpl; auto 40 | reflexivity]. }
  destruct Hmarker as (m & r & Hm & Hip).
  unfold DetectPublicIP.isPrivateIP. apply existsb_exists. exists m.
  split; [exact Hm|]. rewrite Hc, Hip, append_assoc'. apply includes_intro.
Qed.

Local Open Scope list_scope.

(** X9.  [detectPublicIP] answers [true] only if the first configured
    server's transport announced, before the timeout, a server-reflexive
    UDP candidate in which none of the markers occurs; and if that
    candidate validates as a mapping, its address is public by the prefix
    test of [getPublicIPFromStun] or starts with "127.". *)
Theorem public_flag_needs_primary_udp_candidate
    (servers : list StunServer) (transport : StunServer -> list Timed) :
  DetectPublicIP.detectPublicIP servers transport = Some true ->
  exists server rest t c,
    servers = server :: rest
    /\ In (t, Ice (Candidate c)) (transport server)
    /\ t < probeTimeout
    /\ isUdpSrflx c = true
    /\ (forall m, In m DetectPublicIP.markers -> JS.includes c m = false)
    /\ (forall e, parseCandidate c = Some e ->
                  GetPublicIPFromStun.isPrivateIP (ep_ip e) = false
                  \/ JS.startsWith (ep_ip e) "127." = true).
Proof.
  intros H.
  destruct (detectPublicIP_true servers transport H)
    as (server & rest & t & c & Hs & Hin & Ht & Hudp & Hpriv).
  exists server, rest, t, c. repeat split; try assumption.
  - intros m Hm. destruct (JS.includes c m) eqn:Hinc; [|reflexivity].
    assert (Hyes : DetectPublicIP.isPrivateIP c = true)
      by (apply existsb_exists; exists m; split; assumption).
    congruence.
  - intros e He.
    destruct (GetPublicIPFromStun.isPrivateIP (ep_ip e)) eqn:Hp; [|left; reflexivity].
    destruct (JS.startsWith (ep_ip e) "127.") eqn:Hl; [right; reflexivity|].
    rewrite (marker_test_covers_prefix_test c e He Hp Hl) in Hpriv. discriminate.
Qed.

Lemma public_flag_needs_primary_udp_candidate_witness :
  exists server rest t c,
    stunServers = server :: rest
    /\ In (t, Ice (Candidate c))
          [(120, Ice (Candidate "candidate:1 1 UDP 1685987327 203.0.113.5 40000 typ srflx raddr 203.0.113.5 rport 40000"));
           (300, Ice EndOfCandidates)]
    /\ t < probeTimeout
    /\ isUdpSrflx c = true
    /\ (forall m, In m DetectPublicIP.markers -> JS.includes c m = false)
    /\ (forall e, parseCandidate c = Some e ->
                  GetPublicIPFromStun.isPrivateIP (ep_ip e) = false
                  \/ JS.startsWith (ep_ip e) "127." = true).
Proof.
  apply (public_flag_needs_primary_udp_candidate stunServers
           (fun _ =>
              [(120, Ice (Candidate "candidate:1 1 UDP 1685987327 203.0.113.5 40000 typ srflx raddr 203.0.113.5 rport 40000"));
               (300, Ice EndOfCandidates)])).
  vm_compute. reflexivity.
Defined.

(** ** The two address lookups *)

Local Open Scope string_scope.
Local Open Scope Z_scope.

Section RegExpFacts.
Import RegExp.

Lemma run_sound (r : Regex) (s : string) (m : string * string) :
  In m (run r s) -> s = fst m ++ snd m /\ matches r (fst m).
Proof.
  revert s m. induction r as [|c|lo hi|r1 IH1 r2 IH2|r1 IH1 r2 IH2];
    intros s m; simpl.
  - intros [<-|[]]. split; reflexivity.
  - destruct s as [|x s]; [intros []|].
    destruct (Ascii.eqb x c) eqn:Hx; [|intros []].
    apply Ascii.eqb_eq in Hx. subst x. intros [<-|[]]. split; reflexivity.
  - destruct s as [|x s]; [intros []|].
    destruct (inRange lo hi x) eqn:Hx; [|intros []].
    intros [<-|[]]. split; [reflexivity|]. exists x. split; [reflexivity | exact Hx].
  - intros H. apply in_flat_map in H. destruct H as (m1 & H1 & H).
    apply in_map_iff in H. destruct H as (m2 & <- & H2).
    destruct (IH1 _ _ H1) as [Hs1 Hm1]. destruct (IH2 _ _ H2) as [Hs2 Hm2].
    simpl. split.
    + rewrite Hs1, Hs2 at 1. rewrite append_assoc'. reflexivity.
    + exists (fst m1), (fst m2). repeat split; assumption.
  - intros H. apply in_app_or in H. destruct H as [H|H].
    + destruct (IH1 _ _ H) as [Hs Hm]. split; [exact Hs | left; exact Hm].
    + destruct (IH2 _ _ H) as [Hs Hm]. split; [exact Hs | right; exact Hm].
Qed.

Lemma exec_sound (r : Regex) (s w : string) :
  exec r s = Some w -> matches r w /\ exists a b, s = a ++ w ++ b.
Proof.
  induction s as [|x s IH]; simpl.
  - destruct (run r "") as [|m l] eqn:Hrun; [discriminate|].
    intros [= <-]. destruct (run_sound r "" m) as [Hs Hm]; [rewrite Hrun; left; reflexivity|].
    split; [exact Hm|]. exists "", (snd m). exact Hs.
  - destruct (run r (String x s)) as [|m l] eqn:Hrun.
    + intros H. destruct (IH H) as [Hm (a & b & ->)].
      split; [exact Hm|]. exists (String x a), b. reflexivity.
    + intros [= <-].
      destruct (run_sound r (String x s) m) as [Hs Hm]; [rewrite Hrun; left; reflexivity|].
      split; [exact Hm|]. exists "", (snd m). exact Hs.
Qed.

Lemma matches_lit (p w : string) : matches (lit p) w -> w = p.
Proof.
  revert w. induction p as [|c p IH]; intros w; simpl; [auto|].
  intros (w1 & w2 & -> & -> & H2). rewrite (IH _ H2). reflexivity.
Qed.

Lemma matches_octet (w : string) : matches octet w -> isOctet w.
Proof.
  unfold octet, Upto3, Opt, digit, isOctet. simpl.
  intros (w1 & w2 & -> & (x1 & -> & H1) & [(w3 & w4 & -> & (x2 & -> & H2) & [(x3 & -> & H3) | ->]) | ->]);
    simpl; rewrite ?H1, ?H2, ?H3; simpl; split; try reflexivity; lia.
Qed.

Lemma inRange_cases (lo hi x : ascii) :
  inRange lo hi x = true ->
  exists n, x = ascii_of_nat n /\ (nat_of_ascii lo <= n <= nat_of_ascii hi)%nat.
Proof.
  unfold inRange. intros H. apply andb_true_iff in H. destruct H as [H1 H2].
  apply Nat.leb_le in H1, H2. exists (nat_of_ascii x).
  split; [symmetry; apply ascii_nat_embedding | lia].
Qed.

Lemma private_prefix (p r : string) :
  In p GetPublicIPFromStun.prefixes -> GetPublicIPFromStun.isPrivateIP (p ++ r) = true.
Proof.
  intros Hin. unfold GetPublicIPFromStun.isPrivateIP.
  assert (H : existsb (JS.startsWith (p ++ r)) GetPublicIPFromStun.prefixes = true).
  { apply existsb_exists. exists p. split; [exact Hin | apply prefix_app]. }
  rewrite H. reflexivity.
Qed.

Lemma range_6_9 (x : ascii) :
  inRange "6" "9" x = true -> In x ["6"; "7"; "8"; "9"]%char.
Proof.
  intros H. destruct (inRange_cases _ _ _ H) as (n & -> & Hn).
  change (54 <= n <= 57)%nat in Hn.
  assert (Hc : (n = 54 \/ n = 55 \/ n = 56 \/ n = 57)%nat) by lia.
  simpl. intuition (subst n; auto).
Qed.

Lemma range_0_9 (x : ascii) :
  inRange "0" "9" x = true ->
  In x ["0"; "1"; "2"; "3"; "4"; "5"; "6"; "7"; "8"; "9"]%char.
Proof.
  intros H. destruct (inRange_cases _ _ _ H) as (n & -> & Hn).
  change (48 <= n <= 57)%nat in Hn.
  assert (Hc : (n = 48 \/ n = 49 \/ n = 50 \/ n = 51 \/ n = 52 \/ n = 53
                \/ n = 54 \/ n = 55 \/ n = 56 \/ n = 57)%nat) by lia.
  simpl. intuition (subst n; auto 20).
Qed.

Lemma range_0_1 (x : ascii) :
  inRange "0" "1" x = true -> In x ["0"; "1"]%char.
Proof.
  intros H. destruct (inRange_cases _ _ _ H) as (n & -> & Hn).
  change (48 <= n <= 49)%nat in Hn.
  assert (Hc : (n = 48 \/ n = 49)%nat) by lia.
  simpl. intuition (subst n; auto).
Qed.

Lemma private_172 (a b : ascii) (r : string) :
  In (String "1" (String "7" (String "2" (String "." (String a (String b (String "." "")))))))
     GetPublicIPFromStun.prefixes ->
  GetPublicIPFromStun.isPrivateIP
    ("172." ++ (String a "" ++ String b "") ++ String "." "" ++ r) = true.
Proof. intros H. apply (private_prefix _ r H). Qed.

Lemma matches_local_private (w : string) :
  matches localAddress w -> GetPublicIPFromStun.isPrivateIP w = true.
Proof.
  unfold localAddress.
  intros [H | [H | [H | [H | H]]]].
  - destruct H as (w1 & w2 & -> & H1 & _). rewrite (matches_lit _ _ H1).
    apply private_prefix. simpl. auto 30.
  - destruct H as (w1 & w2 & -> & H1 & _). rewrite (matches_lit _ _ H1).
    apply private_prefix. simpl. auto 30.
  - destruct H as (w1 & w2 & -> & H1 & (w3 & w4 & -> & H3 & (w5 & w6 & -> & H5 & _))).
    rewrite (matches_lit _ _ H1). simpl in H5. subst w5.
    destruct H3 as [(a & b & -> & -> & (x & -> & Hx))
                   | [(a & b & -> & -> & (x & -> & Hx))
                     | (a & b & -> & -> & (x & -> & Hx))]];
      apply private_172;
      [apply range_6_9 in Hx | apply range_0_9 in Hx | apply range_0_1 in Hx];
      simpl in Hx; unfold GetPublicIPFromStun.prefixes; simpl;
      intuition (subst x; auto 40).
  - destruct H as (w1 & w2 & -> & H1 & _). rewrite (matches_lit _ _ H1).
    apply private_prefix. simpl. auto 30.
  - destruct H as (w1 & w2 & -> & H1 & _). rewrite (matches_lit _ _ H1).
    apply private_prefix. simpl. auto 30.
Qed.

Lemma matches_dottedQuad (w : string) :
  matches dottedQuad w ->
  exists o1 o2 o3 o4,
    w = o1 ++ "." ++ o2 ++ "." ++ o3 ++ "." ++ o4
    /\ isOctet o1 /\ isOctet o2 /\ isOctet o3 /\ isOctet o4.
Proof.
  unfold dottedQuad, dot.
  intros (o1 & w1 & -> & H1 & (d1 & w2 & -> & -> & (o2 & w3 & -> & H2
          & (d2 & w4 & -> & -> & (o3 & w5 & -> & H3 & (d3 & o4 & -> & -> & H4)))))).
  exists o1, o2, o3, o4. split; [reflexivity|].
  repeat split; apply matches_octet; assumption.
Qed.

End RegExpFacts.

Section LookupFacts.

Lemma advance_publicResolved (evs : list Timed) (r : option string) :
  advance PublicIPFromStun.timeout (fun _ => PublicIPFromStun.finish None)
    PublicIPFromStun.deliver evs (publicResolved r) = publicResolved r.
Proof.
  induction evs as [|[t e] rest IH]; simpl; [reflexivity|].
  rewrite andb_false_r. destruct e as [e|]; simpl; exact IH.
Qed.

Lemma getPublicIPFromStun_eq (evs : list Timed) :
  PublicIPFromStun.getPublicIPFromStun evs = Some (publicAnswer (heard evs)).
Proof.
  unfold PublicIPFromStun.getPublicIPFromStun, eventLoop.
  induction evs as [|[t e] rest IH]; simpl; [reflexivity|].
  destruct (probeTimeout <=? t) eqn:Ht; simpl.
  - change (PublicIPFromStun.finish None PublicIPFromStun.started)
      with (publicResolved None).
    assert (Hd : PublicIPFromStun.deliver t e (publicResolved None) = publicResolved None)
      by (destruct e as [e|]; reflexivity).
    rewrite Hd, advance_publicResolved. reflexivity.
  - destruct e as [[c|]|]; simpl.
    + destruct (isUdpSrflx c); [|exact IH].
      destruct (RegExp.exec RegExp.dottedQuad c) as [ip|]; [|exact IH].
      destruct (GetPublicIPFromStun.isPrivateIP ip); [exact IH|].
      change (PublicIPFromStun.finish (Some ip) PublicIPFromStun.started)
        with (publicResolved (Some ip)).
      rewrite advance_publicResolved. reflexivity.
    + change (PublicIPFromStun.finish None PublicIPFromStun.started)
        with (publicResolved None).
      rewrite advance_publicResolved. reflexivity.
    + change (PublicIPFromStun.finish None PublicIPFromStun.started)
        with (publicResolved None).
      rewrite advance_publicResolved. reflexivity.
Qed.

Lemma advance_localResolved (evs : list Timed) (r : option string) :
  advance LocalIP.timeout (fun _ => LocalIP.finish None)
    LocalIP.deliver evs (localResolved r) = localResolved r.
Proof.
  induction evs as [|[t e] rest IH]; simpl; [reflexivity|].
  rewrite andb_false_r. destruct e as [e|]; simpl; exact IH.
Qed.

Lemma getLocalIP_eq (evs : list Timed) :
  LocalIP.getLocalIP evs = Some (localAnswer (heard evs)).
Proof.
  unfold LocalIP.getLocalIP, eventLoop.
  induction evs as [|[t e] rest IH]; simpl; [reflexivity|].
  destruct (probeTimeout <=? t) eqn:Ht; simpl.
  - change (LocalIP.finish None LocalIP.started) with (localResolved None).
    assert (Hd : LocalIP.deliver t e (localResolved None) = localResolved None)
      by (destruct e as [e|]; reflexivity).
    rewrite Hd, advance_localResolved. reflexivity.
  - destruct e as [[c|]|]; simpl.
    + destruct (RegExp.exec RegExp.localAddress c) as [ip|]; [|exact IH].
      change (LocalIP.finish (Some ip) LocalIP.started) with (localResolved (Some ip)).
      rewrite advance_localResolved. reflexivity.
    + change (LocalIP.finish None LocalIP.started) with (localResolved None).
      rewrite advance_localResolved. reflexivity.
    + change (LocalIP.finish None LocalIP.started) with (localResolved None).
      rewrite advance_localResolved. reflexivity.
Qed.

Lemma publicAnswer_origin (cs : list string) (ip : string) :
  publicAnswer cs = Some ip ->
  exists c, In c cs /\ isUdpSrflx c = true
            /\ RegExp.exec RegExp.dottedQuad c = Some ip
            /\ GetPublicIPFromStun.isPrivateIP ip = false.
Proof.
  induction cs as [|c cs IH]; simpl; [discriminate|].
  destruct (isUdpSrflx c) eqn:Hu.
  - destruct (RegExp.exec RegExp.dottedQuad c) as [ip'|] eqn:He.
    + destruct (GetPublicIPFromStun.isPrivateIP ip') eqn:Hp.
      * intros H. destruct (IH H) as (c' & Hin & H'). exists c'. split; [right; exact Hin | exact H'].
      * intros [= <-]. exists c. repeat split; try assumption. left; reflexivity.
    + intros H. destruct (IH H) as (c' & Hin & H'). exists c'. split; [right; exact Hin | exact H'].
  - intros H. destruct (IH H) as (c' & Hin & H'). exists c'. split; [right; exact Hin | exact H'].
Qed.

Lemma localAnswer_origin (cs : list string) (ip : string) :
  localAnswer cs = Some ip ->
  exists c, In c cs /\ RegExp.exec RegExp.localAddress c = Some ip.
Proof.
  induction cs as [|c cs IH]; simpl; [discriminate|].
  destruct (RegExp.exec RegExp.localAddress c) as [ip'|] eqn:He.
  - intros [= <-]. exists c. split; [left; reflexivity | exact He].
  - intros H. destruct (IH H) as (c' & Hin & H'). exists c'. split; [right; exact Hin | exact H'].
Qed.

End LookupFacts.

(** X10.  The address [getPublicIPFromStun] resolves with is never one its
    prefix test calls private (the handler passes over such candidates and
    goes on listening); it is four groups of one to three digits joined by
    dots, and it occurs in a server-reflexive UDP candidate the transport
    announced before the timeout. *)
Theorem public_address_is_not_private (evs : list Timed) (ip : string) :
  PublicIPFromStun.getPublicIPFromStun evs = Some (Some ip) ->
  GetPublicIPFromStun.isPrivateIP ip = false
  /\ (exists o1 o2 o3 o4,
        ip = o1 ++ "." ++ o2 ++ "." ++ o3 ++ "." ++ o4
        /\ isOctet o1 /\ isOctet o2 /\ isOctet o3 /\ isOctet o4)
  /\ exists t c a b,
       In (t, Ice (Candidate c)) evs /\ t < probeTimeout
       /\ isUdpSrflx c = true /\ c = a ++ ip ++ b.
Proof.
  rewrite getPublicIPFromStun_eq. intros [= H].
  destruct (publicAnswer_origin _ _ H) as (c & Hin & Hu & He & Hp).
  destruct (exec_sound _ _ _ He) as [Hm (a & b & Hc)].
  split; [exact Hp|]. split; [apply matches_dottedQuad; exact Hm|].
  destruct (heard_in _ _ Hin) as (t & Hev & Ht).
  exists t, c, a, b. repeat split; assumption.
Qed.

Lemma public_address_is_not_private_witness :
  GetPublicIPFromStun.isPrivateIP "110.242.68.66" = false
  /\ (exists o1 o2 o3 o4,
        "110.242.68.66" = o1 ++ "." ++ o2 ++ "." ++ o3 ++ "." ++ o4
        /\ isOctet o1 /\ isOctet o2 /\ isOctet o3 /\ isOctet o4)
  /\ exists t c a b,
       In (t, Ice (Candidate c))
          [(80, Ice (Candidate "candidate:1 1 UDP 1685987327 10.0.0.5 37737 typ srflx raddr 0.0.0.0 rport 0"));
           (120, Ice (Candidate "candidate:2 1 UDP 1685987327 110.242.68.66 37737 typ srflx raddr 0.0.0.0 rport 0"));
           (300, Ice EndOfCandidates)]
       /\ t < probeTimeout
       /\ isUdpSrflx c = true /\ c = a ++ "110.242.68.66" ++ b.
Proof.
  apply (public_address_is_not_private
           [(80, Ice (Candidate "candidate:1 1 UDP 1685987327 10.0.0.5 37737 typ srflx raddr 0.0.0.0 rport 0"));
            (120, Ice (Candidate "candidate:2 1 UDP 1685987327 110.242.68.66 37737 typ srflx raddr 0.0.0.0 rport 0"));
            (300, Ice EndOfCandidates)]).
  vm_compute. reflexivity.
Defined.

(** X11.  The address [getLocalIP] resolves with is always one the prefix
    test of [getPublicIPFromStun] calls private, so it is never an address
    [getPublicIPFromStun] resolves with; and it occurs in a candidate the
    transport announced before the timeout. *)
Theorem local_address_is_private (evs : list Timed) (ip : string) :
  LocalIP.getLocalIP evs = Some (Some ip) ->
  GetPublicIPFromStun.isPrivateIP ip = true
  /\ (forall evs', PublicIPFromStun.getPublicIPFromStun evs' <> Some (Some ip))
  /\ exists t c a b,
       In (t, Ice (Candidate c)) evs /\ t < probeTimeout /\ c = a ++ ip ++ b.
Proof.
  rewrite getLocalIP_eq. intros [= H].
  destruct (localAnswer_origin _ _ H) as (c & Hin & He).
  destruct (exec_sound _ _ _ He) as [Hm (a & b & Hc)].
  assert (Hp : GetPublicIPFromStun.isPrivateIP ip = true)
    by (apply matches_local_private; exact Hm).
  split; [exact Hp|]. split.
  - intros evs'. rewrite getPublicIPFromStun_eq. intros [= H'].
    destruct (publicAnswer_origin _ _ H') as (_ & _ & _ & _ & Hnp). congruence.
  - destruct (heard_in _ _ Hin) as (t & Hev & Ht).
    exists t, c, a, b. repeat split; assumption.
Qed.

Lemma local_address_is_private_witness :
  GetPublicIPFromStun.isPrivateIP "192.168.1.20" = true
  /\ (forall evs',
        PublicIPFromStun.getPublicIPFromStun evs' <> Some (Some "192.168.1.20"))
  /\ exists t c a b,
       In (t, Ice (Candidate c))
          [(40, Ice (Candidate "candidate:0 1 UDP 2122252543 192.168.1.20 52311 typ host"))]
       /\ t < probeTimeout /\ c = a ++ "192.168.1.20" ++ b.
Proof.
  apply (local_address_is_private
           [(40, Ice (Candidate "candidate:0 1 UDP 2122252543 192.168.1.20 52311 typ host"))]).
  vm_compute. reflexivity.
Defined.

Local Open Scope list_scope.

(** ** The path-quality prober, continued *)

Section SpeedTestMore.
Import SpeedTest.
Variable startTime : Z.
Variable target : MappedAddress.

Lemma run_app (schedule more : list Event) :
  run startTime target (schedule ++ more)
  = fold_left (fun st e => step startTime target e st) more
      (run startTime target schedule).
Proof. unfold run. apply fold_left_app. Qed.

Lemma step_released (e : Event) (st : State) :
  released st -> released (step startTime target e st).
Proof.
  unfold released. intros H.
  destruct (outcome st) as [r|] eqn:Ho.
  - destruct (H ltac:(discriminate)) as (H1 & H2 & H3 & H4). clear H. intros _.
    destruct e as [now|now o| | |now ab echo|now ab| | |now|now]; unfold step;
      rewrite ?H1, ?H2, ?H3, ?H4; simpl; auto.
    + destruct (sendInterval (handles st)); [|auto].
      unfold tick. rewrite H2. destruct o; simpl; auto.
    + destruct (wire12 (wire st)); auto.
    + destruct (wire21 (wire st)); auto.
  - destruct e as [now|now o| | |now ab echo|now ab| | |now|now]; unfold step; cbv zeta.
    + destruct (pcs (handles st)); [|rewrite Ho; congruence]. unfold onopen.
      destruct (connectionEstablished st); simpl; rewrite Ho; congruence.
    + destruct (sendInterval (handles st)); [|rewrite Ho; congruence].
      unfold tick. destruct o; [destruct (dataChannel1 (handles st))
                              |destruct (dataChannel1 (handles st))|];
        simpl; rewrite Ho; congruence.
    + simpl. rewrite Ho. congruence.
    + destruct (pcs (handles st)); simpl; rewrite Ho; congruence.
    + destruct (wire12 (wire st)); [rewrite Ho; congruence|].
      destruct (dataChannel2 (handles st)); [|rewrite Ho; congruence].
      unfold onmessage2. destruct (ab && _); [destruct echo|]; simpl; rewrite Ho; congruence.
    + destruct (wire21 (wire st)); [rewrite Ho; congruence|].
      destruct (dataChannel1 (handles st)); [|rewrite Ho; congruence].
      unfold onmessage1. destruct (ab && _); simpl; rewrite Ho; congruence.
    + simpl. rewrite Ho. congruence.
    + simpl. rewrite Ho. congruence.
    + intros _. simpl. auto.
    + destruct (timeout (handles st)); [intros _; simpl; auto | rewrite Ho; congruence].
Qed.

Lemma run_released (schedule : list Event) : released (run startTime target schedule).
Proof.
  unfold run.
  assert (H0 : released (started startTime)) by (intros H; exfalso; apply H; reflexivity).
  revert H0. generalize (started startTime).
  induction schedule as [|e schedule IH]; intros st Hst; simpl; [exact Hst|].
  apply IH. apply step_released. exact Hst.
Qed.

Lemma step_after_release (e : Event) (st : State) (r : SpeedTestResult) :
  released st -> outcome st = Some r ->
  outcome (step startTime target e st) = Some r
  /\ stats (step startTime target e st) = stats st.
Proof.
  intros H Ho. destruct (H ltac:(congruence)) as (H1 & H2 & H3 & H4).
  destruct e as [now|now o| | |now ab echo|now ab| | |now|now]; unfold step;
    rewrite ?H1, ?H2, ?H3, ?H4; simpl; auto.
  - destruct (sendInterval (handles st)); [|auto].
    unfold tick. rewrite H2. destruct o; simpl; auto.
  - destruct (wire12 (wire st)); auto.
  - destruct (wire21 (wire st)); auto.
  - rewrite Ho. auto.
Qed.

Lemma fold_after_release (more : list Event) (st : State) (r : SpeedTestResult) :
  released st -> outcome st = Some r ->
  outcome (fold_left (fun st e => step startTime target e st) more st) = Some r
  /\ stats (fold_left (fun st e => step startTime target e st) more st) = stats st.
Proof.
  revert st. induction more as [|e more IH]; intros st H Ho; simpl;
    [split; [exact Ho | reflexivity]|].
  destruct (step_after_release e st r H Ho) as [Ho' Hs'].
  destruct (IH _ (step_released e st H) Ho') as [H1 H2].
  split; [exact H1 | rewrite H2; exact Hs'].
Qed.

Lemma measured_nothing (now : Z) (st : State) :
  connectionEstablished st = false -> stats st = noStats ->
  nothingMeasured (measured startTime now target st).
Proof.
  intros Hc Hs. unfold nothingMeasured, measured, avgLatency, rawThroughput,
    rawPacketLoss. rewrite Hc, Hs. simpl. repeat split; reflexivity.
Qed.

Lemma step_unopened (e : Event) (st : State) :
  (forall now, e <> Channel1Open now) ->
  unopened st -> unopened (step startTime target e st).
Proof.
  intros He H. pose proof H as (H1 & H2 & H3 & H4 & H5).
  destruct e as [now|now o| | |now ab echo|now ab| | |now|now]; unfold step; cbv zeta.
  - exfalso. apply (He now). reflexivity.
  - rewrite H2. exact H.
  - unfold unopened, clearInterval; simpl. split5; auto.
  - destruct (pcs (handles st)); [|exact H].
    unfold unopened; simpl; split5; auto.
  - rewrite H4. exact H.
  - rewrite H4. exact H.
  - unfold unopened; simpl. rewrite H4. split5; auto.
  - unfold unopened; simpl. rewrite H4. split5; auto.
  - unfold unopened, finish; simpl. split5; try assumption.
    intros r. destruct (outcome st) as [old|] eqn:Ho; intros [= <-].
    + apply H5. reflexivity.
    + unfold nothingMeasured. simpl. repeat split; reflexivity.
  - destruct (timeout (handles st)); [|exact H].
    unfold unopened, finish; simpl. split5; try assumption.
    intros r. destruct (outcome st) as [old|] eqn:Ho; intros [= <-].
    + apply H5. reflexivity.
    + apply measured_nothing; assumption.
Qed.

Lemma run_unopened (schedule : list Event) :
  (forall now, ~ In (Channel1Open now) schedule) ->
  unopened (run startTime target schedule).
Proof.
  unfold run.
  assert (H0 : unopened (started startTime)).
  { unfold unopened; simpl. split5; try reflexivity. intros r H; discriminate H. }
  revert H0. generalize (started startTime).
  induction schedule as [|e schedule IH]; intros st Hst Hno; simpl; [exact Hst|].
  apply IH.
  - apply step_unopened; [|exact Hst]. intros now ->. apply (Hno now). left; reflexivity.
  - intros now Hin. apply (Hno now). right; exact Hin.
Qed.

Local Arguments Z.mul : simpl never.
Local Arguments Z.of_nat : simpl never.

Lemma step_accounted (e : Event) (st : State) :
  accounted st -> accounted (step startTime target e st).
Proof.
  intros (H1 & H2 & H3 & H4 & H5).
  destruct e as [now|now o| | |now ab echo|now ab| | |now|now]; unfold step; cbv zeta.
  - destruct (pcs (handles st)); [|repeat split; assumption]. unfold onopen.
    destruct (connectionEstablished st); repeat split; assumption.
  - destruct (sendInterval (handles st)); [|repeat split; assumption].
    unfold tick.
    destruct o; [destruct (dataChannel1 (handles st))
                | destruct (dataChannel1 (handles st)) |];
      unfold accounted; simpl; repeat split; try assumption.
    apply Forall_app. split; [exact H1|]. constructor; [reflexivity | constructor].
  - unfold accounted; simpl. repeat split; assumption.
  - destruct (pcs (handles st)); unfold accounted; simpl; repeat split; assumption.
  - destruct (wire12 (wire st)) as [|data rest] eqn:Hw; [repeat split; try assumption; rewrite Hw; assumption|].
    destruct (dataChannel2 (handles st)); [|repeat split; try assumption; rewrite Hw; assumption].
    inversion H1 as [|? ? Hd Hrest]; subst.
    unfold onmessage2. rewrite Hd. change (12 <=? packetSize) with true.
    rewrite andb_true_r.
    destruct ab; [destruct echo|]; unfold accounted; simpl;
      rewrite ?length_app; simpl; repeat split; try assumption;
      try (apply Forall_app; split; [assumption | constructor; [assumption | constructor]]);
      unfold packetSize in *; try lia.
  - destruct (wire21 (wire st)) as [|data rest] eqn:Hw; [repeat split; try assumption; rewrite Hw; assumption|].
    destruct (dataChannel1 (handles st)); [|repeat split; try assumption; rewrite Hw; assumption].
    inversion H2 as [|? ? Hd Hrest]; subst. simpl in H5.
    unfold onmessage1. rewrite Hd. change (12 <=? packetSize) with true.
    rewrite andb_true_r.
    destruct ab; unfold accounted; simpl; rewrite ?length_app; simpl;
      repeat split; try assumption; unfold packetSize in *; try lia.
  - unfold accounted; simpl. repeat split; try assumption.
    destruct (wire12 (wire st)); [constructor | inversion H1; assumption].
  - unfold accounted; simpl. repeat split; try assumption.
    + destruct (wire21 (wire st)); [constructor | inversion H2; assumption].
    + destruct (wire21 (wire st)); simpl in *; lia.
  - unfold accounted, finish; simpl. repeat split; assumption.
  - destruct (timeout (handles st)); [|repeat split; assumption].
    unfold accounted, finish; simpl. repeat split; assumption.
Qed.

Lemma run_accounted (schedule : list Event) :
  accounted (run startTime target schedule).
Proof.
  unfold run.
  assert (H0 : accounted (started startTime)).
  { unfold accounted; simpl. repeat split; try constructor; lia. }
  revert H0. generalize (started startTime).
  induction schedule as [|e schedule IH]; intros st Hst; simpl; [exact Hst|].
  apply IH. apply step_accounted. exact Hst.
Qed.

Lemma step_stopped (e : Event) (st : State) :
  stopped st ->
  stopped (step startTime target e st)
  /\ sent (packets (stats (step startTime target e st))) = sent (packets (stats st)).
Proof.
  intros [H1 H2].
  destruct e as [now|now o| | |now ab echo|now ab| | |now|now]; unfold step;
    unfold stopped; rewrite ?H2.
  - destruct (pcs (handles st)); [|auto]. unfold onopen. rewrite H1. auto.
  - auto.
  - simpl. auto.
  - destruct (pcs (handles st)); simpl; auto.
  - destruct (wire12 (wire st)); [auto|].
    destruct (dataChannel2 (handles st)); [|auto].
    unfold onmessage2. destruct (ab && _); [destruct echo|]; simpl; auto.
  - destruct (wire21 (wire st)); [auto|].
    destruct (dataChannel1 (handles st)); [|auto].
    unfold onmessage1. destruct (ab && _); simpl; auto.
  - simpl. auto.
  - simpl. auto.
  - simpl. auto.
  - destruct (timeout (handles st)); simpl; auto.
Qed.

Lemma fold_stopped (more : list Event) (st : State) :
  stopped st ->
  sent (packets (stats (fold_left (fun st e => step startTime target e st) more st)))
  = sent (packets (stats st)).
Proof.
  revert st. induction more as [|e more IH]; intros st H; simpl; [reflexivity|].
  destruct (step_stopped e st H) as [H' Hs]. rewrite (IH _ H'). exact Hs.
Qed.

End SpeedTestMore.

(** X12.  The result of a speed test is final: once the promise is
    resolved, nothing that happens afterwards (late messages, ticks of the
    send interval, a late failure of the offer/answer chain) changes the
    result, and nothing is measured any more. *)
Theorem speed_test_result_is_final
    (startTime : Z) (target : MappedAddress)
    (schedule more : list SpeedTest.Event) (r : SpeedTestResult) :
  SpeedTest.performSpeedTest startTime target schedule = Some r ->
  SpeedTest.performSpeedTest startTime target (schedule ++ more) = Some r
  /\ SpeedTest.stats (SpeedTest.run startTime target (schedule ++ more))
     = SpeedTest.stats (SpeedTest.run startTime target schedule).
Proof.
  unfold SpeedTest.performSpeedTest. intros H. rewrite run_app.
  apply fold_after_release; [apply run_released | exact H].
Qed.

Lemma speed_test_result_is_final_witness :
  SpeedTest.performSpeedTest 0 scenarioTarget
    (scenarioE ++ [SpeedTest.SendTick 6050 SpeedTest.Taken;
                   SpeedTest.Channel2Message 6060 true SpeedTest.Taken;
                   SpeedTest.SetupFailed 6100])
  = Some {| latency := 15; throughput := 3800 # 100; packetLoss := 500 # 100;
            connectionTime := 300; status := success;
            packetsSent := 80; packetsReceived := 76;
            mappedAddress := scenarioTarget |}
  /\ SpeedTest.stats
       (SpeedTest.run 0 scenarioTarget
          (scenarioE ++ [SpeedTest.SendTick 6050 SpeedTest.Taken;
                         SpeedTest.Channel2Message 6060 true SpeedTest.Taken;
                         SpeedTest.SetupFailed 6100]))
     = SpeedTest.stats (SpeedTest.run 0 scenarioTarget scenarioE).
Proof.
  apply speed_test_result_is_final. vm_compute. reflexivity.
Defined.

(** X13.  If [dataChannel1.onopen] never runs, whatever else happens, the
    result the test resolves to has status [failed], no packet sent or
    received, latency 0, throughput 0 and a packet loss of 100. *)
Theorem unopened_path_reports_failure
    (startTime : Z) (target : MappedAddress)
    (schedule : list SpeedTest.Event) (r : SpeedTestResult) :
  (forall now, ~ In (SpeedTest.Channel1Open now) schedule) ->
  SpeedTest.performSpeedTest startTime target schedule = Some r ->
  nothingMeasured r.
Proof.
  intros Hno Hr.
  destruct (run_unopened startTime target schedule Hno) as (_ & _ & _ & _ & H).
  apply H. exact Hr.
Qed.

Lemma unopened_path_reports_failure_witness :
  nothingMeasured
    {| latency := 0; throughput := 0 # 100; packetLoss := 10000 # 100;
       connectionTime := 6000; status := failed;
       packetsSent := 0; packetsReceived := 0;
       mappedAddress := scenarioTarget |}.
Proof.
  apply (unopened_path_reports_failure 0 scenarioTarget
           [SpeedTest.DataChannel; SpeedTest.SendTick 350 SpeedTest.Taken;
            SpeedTest.Channel2Message 360 true SpeedTest.Taken;
            SpeedTest.TimerFired 6000]).
  - intros now [H|[H|[H|[H|[]]]]]; discriminate H.
  - vm_compute. reflexivity.
Defined.

(** X14.  The accounting of a speed test, in every reachable state: every
    message counted, at either end, adds exactly [packetSize] = 1024 bytes
    and one latency sample, so the bytes received are 1024 times the
    number of samples; the samples are at least the payloads the
    responder received and at most twice as many, the rest being echoes
    received back. *)
Theorem speed_test_accounting
    (startTime : Z) (target : MappedAddress) (schedule : list SpeedTest.Event) :
  let s := SpeedTest.stats (SpeedTest.run startTime target schedule) in
  let n := Z.of_nat (length (SpeedTest.latencies s)) in
  SpeedTest.totalBytesReceived s = 1024 * n
  /\ SpeedTest.received (SpeedTest.packets s) <= n
  /\ n <= 2 * SpeedTest.received (SpeedTest.packets s).
Proof.
  destruct (run_accounted startTime target schedule) as (_ & _ & H3 & H4 & H5).
  cbv zeta. split; [exact H3|]. split; [exact H4|]. lia.
Qed.

(** X15.  When the channel has opened, clearing the send interval ends the
    sending for good: whatever happens afterwards, the number of packets
    sent stays what it was. *)
Theorem no_send_after_stop
    (startTime : Z) (target : MappedAddress)
    (schedule more : list SpeedTest.Event) :
  SpeedTest.connectionEstablished (SpeedTest.run startTime target schedule) = true ->
  SpeedTest.sent (SpeedTest.packets (SpeedTest.stats
     (SpeedTest.run startTime target (schedule ++ SpeedTest.StopSending :: more))))
  = SpeedTest.sent (SpeedTest.packets (SpeedTest.stats
      (SpeedTest.run startTime target schedule))).
Proof.
  intros H. rewrite run_app. simpl.
  rewrite fold_stopped; [reflexivity|]. split; [exact H | reflexivity].
Qed.

Lemma no_send_after_stop_witness :
  SpeedTest.sent (SpeedTest.packets (SpeedTest.stats
     (SpeedTest.run 0 scenarioTarget
        ([SpeedTest.Channel1Open 300; SpeedTest.SendTick 350 SpeedTest.Taken]
         ++ SpeedTest.StopSending
         :: [SpeedTest.SendTick 4350 SpeedTest.Taken;
             SpeedTest.Channel1Open 4360;
             SpeedTest.SendTick 4400 SpeedTest.Taken]))))
  = SpeedTest.sent (SpeedTest.packets (SpeedTest.stats
      (SpeedTest.run 0 scenarioTarget
         [SpeedTest.Channel1Open 300; SpeedTest.SendTick 350 SpeedTest.Taken]))).
Proof.
  apply no_send_after_stop. reflexivity.
Defined.

(** ** The aggregate and the report *)

(** A speed test reports the address it was given. *)
Lemma speed_test_result_carries_target
    (startTime : Z) (target : MappedAddress)
    (schedule : list SpeedTest.Event) (r : SpeedTestResult) :
  SpeedTest.performSpeedTest startTime target schedule = Some r ->
  mappedAddress r = target.
Proof.
  unfold SpeedTest.performSpeedTest, SpeedTest.run.
  assert (H0 : forall r, SpeedTest.outcome (SpeedTest.started startTime) = Some r ->
                         mappedAddress r = target) by (intros r' H; discriminate H).
  revert H0 r. generalize (SpeedTest.started startTime).
  induction schedule as [|e schedule IH]; intros st Hst r; simpl; [apply Hst|].
  apply IH. clear IH r. intros r.
  destruct e as [now|now o| | |now ab echo|now ab| | |now|now];
    unfold SpeedTest.step; cbv zeta.
  - destruct (SpeedTest.pcs (SpeedTest.handles st)); [|apply Hst].
    unfold SpeedTest.onopen.
    destruct (SpeedTest.connectionEstablished st); apply Hst.
  - destruct (SpeedTest.sendInterval (SpeedTest.handles st)); [|apply Hst].
    unfold SpeedTest.tick.
    destruct o; [destruct (SpeedTest.dataChannel1 (SpeedTest.handles st))
                | destruct (SpeedTest.dataChannel1 (SpeedTest.handles st)) |];
      apply Hst.
  - apply Hst.
  - destruct (SpeedTest.pcs (SpeedTest.handles st)); apply Hst.
  - destruct (SpeedTest.wire12 (SpeedTest.wire st)); [apply Hst|].
    destruct (SpeedTest.dataChannel2 (SpeedTest.handles st)); [|apply Hst].
    unfold SpeedTest.onmessage2.
    destruct (ab && _); [destruct echo|]; apply Hst.
  - destruct (SpeedTest.wire21 (SpeedTest.wire st)); [apply Hst|].
    destruct (SpeedTest.dataChannel1 (SpeedTest.handles st)); [|apply Hst].
    unfold SpeedTest.onmessage1. destruct (ab && _); apply Hst.
  - apply Hst.
  - apply Hst.
  - unfold SpeedTest.finish. simpl.
    destruct (SpeedTest.outcome st) as [old|] eqn:Ho; intros [= <-];
      [apply Hst; reflexivity | reflexivity].
  - destruct (SpeedTest.timeout (SpeedTest.handles st)); [|apply Hst].
    unfold SpeedTest.finish. simpl.
    destruct (SpeedTest.outcome st) as [old|] eqn:Ho; intros [= <-];
      [apply Hst; reflexivity | reflexivity].
Qed.

Lemma formatNATType_cases (x : string) :
  In (formatNATType x)
     ["全锥型/受限锥型NAT"; "受限锥型NAT"; "对称型NAT（可STUN，但P2P困难）";
      "端口受限型NAT"; "受限网络（可STUN通信）"].
Proof.
  unfold formatNATType.
  repeat match goal with |- context [if ?b then _ else _] => destruct b end;
    simpl; auto 10.
Qed.

Lemma other_labels (udpNat : string) (tcpNat : option string) :
  let label :=
    match option_map formatNATType tcpNat with
    | Some tcpType =>
        if negb (String.eqb (formatNATType udpNat) tcpType)
        then ("UDP " ++ formatNATType udpNat ++ "，TCP " ++ tcpType)%string
        else (tcpType ++ "（TCP/UDP）")%string
    | None => (formatNATType udpNat ++ "（仅UDP检测）")%string
    end in
  label <> FirewalledBlocked /\ label <> OpenPublic.
Proof.
  destruct tcpNat as [t|]; simpl.
  - destruct (negb (formatNATType udpNat =? formatNATType t)%string).
    + split; discriminate.
    + pose proof (formatNATType_cases t) as H. simpl in H.
      destruct H as [<-|[<-|[<-|[<-|[<-|[]]]]]]; split; discriminate.
  - pose proof (formatNATType_cases udpNat) as H. simpl in H.
    destruct H as [<-|[<-|[<-|[<-|[<-|[]]]]]]; split; discriminate.
Qed.

(** X16.  The first two rules of the overall label are exact: the label is
    the firewalled one if and only if no server is reachable, and the
    open/public one if and only if some server is reachable, the public-IP
    test says yes, the UDP classification is "Unknown" (none, or one with
    differing IPs) and there is no TCP classification.  No other
    combination of results produces either label. *)
Theorem network_type_rules (aw : Awaited) :
  (net_type (detectNetworkType aw) = FirewalledBlocked <-> reachableServers aw = [])
  /\ (net_type (detectNetworkType aw) = OpenPublic <->
      reachableServers aw <> []
      /\ hasPublicIP (details (detectNetworkType aw)) = true
      /\ udpNatType (details (detectNetworkType aw)) = "Unknown"
      /\ tcpNatType (details (detectNetworkType aw)) = None).
Proof.
  unfold detectNetworkType. cbv zeta. cbn [net_type details hasPublicIP udpNatType tcpNatType].
  set (udpNat := match orElse _ (Some "Unknown") with Some s => s | None => "Unknown" end).
  set (tcpNat := orElse _ None).
  destruct (other_labels udpNat tcpNat) as [Hf Ho]. cbv zeta in Hf, Ho.
  destruct (reachableServers aw) as [|s l]; simpl length; cbn [Nat.eqb].
  - split; split; try reflexivity; try discriminate.
    intros (H & _). congruence.
  - destruct (awaitedPublicIP aw); cbn [andb].
    + destruct (udpNat =? "Unknown")%string eqn:Hu; cbn [andb].
      * destruct tcpNat as [t|] eqn:Ht; cbn [isSome negb].
        -- split; split; intros H; try discriminate H; try (exfalso; auto; fail).
           destruct H as (_ & _ & _ & H). discriminate H.
        -- apply String.eqb_eq in Hu. split; split; intros H; try discriminate H.
           ++ repeat split; try assumption; discriminate.
           ++ reflexivity.
      * apply String.eqb_neq in Hu.
        split; split; intros H; try discriminate H; try (exfalso; auto; fail).
        destruct H as (_ & _ & H & _). congruence.
    + split; split; intros H; try discriminate H; try (exfalso; auto; fail).
      destruct H as (_ & H & _). discriminate H.
Qed.

(** X17.  Provided each awaited speed test reports the address it was
    given, as [performSpeedTest] does, the results listed are one per
    address of evidence, in the order IPv4 UDP, IPv4 TCP, IPv6 UDP, IPv6
    TCP, each tagged with its protocol and family; and there are none at
    all unless a server is reachable and some connection test succeeded. *)
Theorem speed_tests_follow_the_evidence (aw : Awaited) :
  (forall m r, awaitSpeedTest aw m = Some r -> mappedAddress r = m) ->
  map mappedAddress (speedTests (details (detectNetworkType aw)))
  = if (0 <? length (reachableServers aw))%nat
       && (existsb conn_udp (connectionResults aw)
           || existsb conn_tcp (connectionResults aw))
    then tagged (ipv4UdpResult aw) UDP IPv4 ++ tagged (ipv4TcpResult aw) TCP IPv4
         ++ tagged (ipv6UdpResult aw) UDP IPv6 ++ tagged (ipv6TcpResult aw) TCP IPv6
    else [].
Proof.
  intros H. unfold detectNetworkType. cbn [details speedTests].
  destruct ((0 <? length (reachableServers aw))%nat
            && (existsb conn_udp (connectionResults aw)
                || existsb conn_tcp (connectionResults aw))); [|reflexivity].
  rewrite map_map. rewrite <- (map_id (tagged _ _ _ ++ _)) at 2.
  apply map_ext. intros m.
  destruct (awaitSpeedTest aw m) as [r|] eqn:Hm; [exact (H m r Hm) | reflexivity].
Qed.

Lemma speed_tests_follow_the_evidence_witness :
  map mappedAddress
    (speedTests (details (detectNetworkType
       {| reachableServers := stunServers;
          connectionResults := [ {| conn_udp := true; conn_tcp := false |} ];
          awaitedPublicIP := false;
          ipv4UdpResult :=
            Some {| type := "Symmetric NAT";
                    mappedAddresses :=
                      [ {| ip := "203.0.113.5"; port := 40000; server := "stun.miwifi.com" |};
                        {| ip := "203.0.113.5"; port := 51000; server := "stun.l.google.com" |} ] |};
          ipv4TcpResult := None; ipv6UdpResult := None; ipv6TcpResult := None;
          awaitSpeedTest := fun m => SpeedTest.performSpeedTest 0 m [SpeedTest.TimerFired 6000] |})))
  = [ {| ma_ip := "203.0.113.5"; ma_port := 40000; ma_server := "stun.miwifi.com";
         ma_protocol := UDP; ma_ipVersion := IPv4 |};
      {| ma_ip := "203.0.113.5"; ma_port := 51000; ma_server := "stun.l.google.com";
         ma_protocol := UDP; ma_ipVersion := IPv4 |} ].
Proof.
  apply (speed_tests_follow_the_evidence
           {| reachableServers := stunServers;
              connectionResults := [ {| conn_udp := true; conn_tcp := false |} ];
              awaitedPublicIP := false;
              ipv4UdpResult :=
                Some {| type := "Symmetric NAT";
                        mappedAddresses :=
                          [ {| ip := "203.0.113.5"; port := 40000; server := "stun.miwifi.com" |};
                            {| ip := "203.0.113.5"; port := 51000; server := "stun.l.google.com" |} ] |};
              ipv4TcpResult := None; ipv6UdpResult := None; ipv6TcpResult := None;
              awaitSpeedTest := fun m => SpeedTest.performSpeedTest 0 m [SpeedTest.TimerFired 6000] |}).
  intros m r H.
  exact (speed_test_result_carries_target 0 m [SpeedTest.TimerFired 6000] r H).
Defined.

(** X18.  In the report every configured server appears with a flag, and
    the flag is set exactly when some configured server with the same
    host passed the reachability test: the flags are looked up by host, so
    two roster entries that share a host share their flag. *)
Theorem report_flags_by_host
    (servers : list StunServer) (connection : StunServer -> option Connection)
    (networkTypeResult : NetworkDetectionResult) (publicIP localIP : option string)
    (info : DetailedNetworkInfo) (s : StunServer) (flag : bool) :
  getDetailedNetworkInfo servers networkTypeResult publicIP localIP
    (testStunServers servers connection) = Some info ->
  In (s, flag) (info_stunServers info) ->
  In s servers
  /\ (flag = true <->
      exists s', In s' servers /\ host s' = host s
                 /\ exists result, connection s' = Some result
                                   /\ testStunServer result = true).
Proof.
  unfold getDetailedNetworkInfo. destruct servers as [|s0 l] eqn:Hs; [discriminate|].
  rewrite <- Hs. clear Hs s0 l. intros [= <-]. cbn [info_stunServers].
  intros Hin. apply in_map_iff in Hin. destruct Hin as (x & [= -> <-] & Hx).
  split; [exact Hx|]. rewrite existsb_exists. split.
  - intros (rs & Hrs & Hhost). apply String.eqb_eq in Hhost.
    unfold testStunServers in Hrs. apply filter_In in Hrs. destruct Hrs as [Hrs Hpass].
    exists rs. split; [exact Hrs|]. split; [exact Hhost|].
    destruct (connection rs) as [result|]; [|discriminate].
    exists result. split; [reflexivity | exact Hpass].
  - intros (s' & Hs' & Hhost & result & Hc & Ht). exists s'. split.
    + unfold testStunServers. apply filter_In. split; [exact Hs'|].
      rewrite Hc. exact Ht.
    + apply String.eqb_eq. exact Hhost.
Qed.

Lemma report_flags_by_host_witness :
  In (nth 0 stunServers (Build_StunServer "" "" 0 "")) stunServers
  /\ (true = true <->
      exists s', In s' stunServers
                 /\ host s' = host (nth 0 stunServers (Build_StunServer "" "" 0 ""))
                 /\ exists result,
                      (fun s : StunServer =>
                         Some {| conn_udp := String.eqb (host s) "stun.miwifi.com";
                                 conn_tcp := false |}) s' = Some result
                      /\ testStunServer result = true).
Proof.
  eapply (report_flags_by_host stunServers
            (fun s : StunServer =>
               Some {| conn_udp := String.eqb (host s) "stun.miwifi.com";
                       conn_tcp := false |})
            (detectNetworkType
               {| reachableServers := []; connectionResults := [];
                  awaitedPublicIP := false;
                  ipv4UdpResult := None; ipv4TcpResult := None;
                  ipv6UdpResult := None; ipv6TcpResult := None;
                  awaitSpeedTest := fun _ => None |})
            None None).
  - reflexivity.
  - left. reflexivity.
Defined.

Local Open Scope string_scope.

Lemma no_space_cons (c : ascii) (a : string) :
  JS.includes (String c a) " " = false ->
  Ascii.eqb c " " = false /\ JS.includes a " " = false.
Proof.
  rewrite includes_unfold. intros H. apply orb_false_iff in H. destruct H as [H1 H2].
  split; [|exact H2]. simpl in H1.
  destruct (ascii_dec " " c) as [<-|Hne].
  - destruct a; discriminate.
  - apply Ascii.eqb_neq. congruence.
Qed.

Lemma split_field (a b : string) :
  JS.includes a " " = false ->
  JS.split " " (a ++ " " ++ b) = a :: JS.split " " b.
Proof.
  induction a as [|c a IH]; intros H; [reflexivity|].
  destruct (no_space_cons c a H) as [Hc Ha]. simpl. rewrite Hc.
  change (String " " b) with (" " ++ b). rewrite (IH Ha). reflexivity.
Qed.

(** X19.  The validation of a candidate reads the address from the fifth
    and the port from the sixth space-separated field: for a candidate
    made of a foundation, a component, a transport, a priority, an
    address and a port text, none of which contains a space, followed by
    anything, it yields that address and the number [parseInt] reads from
    the port text, provided the address is not empty and the number is
    above zero. *)
Theorem parseCandidate_reads_fifth_and_sixth_field
    (foundation component transport priority ip portText rest : string) (port : Z) :
  JS.includes foundation " " = false -> JS.includes component " " = false ->
  JS.includes transport " " = false -> JS.includes priority " " = false ->
  JS.includes ip " " = false -> JS.includes portText " " = false ->
  ip <> "" -> JS.parseInt portText = Some port -> (0 < port)%Z ->
  parseCandidate (foundation ++ " " ++ component ++ " " ++ transport ++ " "
                  ++ priority ++ " " ++ ip ++ " " ++ portText ++ " " ++ rest)
  = Some {| ep_ip := ip; ep_port := port |}.
Proof.
  intros H1 H2 H3 H4 H5 H6 Hip Hport Hpos. unfold parseCandidate.
  rewrite !split_field by assumption. cbn [length nth Nat.leb].
  rewrite Hport. apply Z.ltb_lt in Hpos. rewrite Hpos.
  apply String.eqb_neq in Hip. rewrite Hip. reflexivity.
Qed.

Lemma parseCandidate_reads_fifth_and_sixth_field_witness :
  parseCandidate ("candidate:1" ++ " " ++ "1" ++ " " ++ "UDP" ++ " "
                  ++ "1685987327" ++ " " ++ "203.0.113.5" ++ " " ++ "40000"
                  ++ " " ++ "typ srflx raddr 0.0.0.0 rport 0")
  = Some {| ep_ip := "203.0.113.5"; ep_port := 40000 |}.
Proof.
  apply (parseCandidate_reads_fifth_and_sixth_field
           "candidate:1" "1" "UDP" "1685987327" "203.0.113.5" "40000"
           "typ srflx raddr 0.0.0.0 rport 0" 40000);
    try reflexivity; try discriminate; lia.
Defined.

Local Open Scope list_scope.

(** ** Probes and detectors together *)

Lemma classifier_evidence (servers : list StunServer) (addresses : list Address)
    (p : Protocol) (v : IpVersion) (r : NATTypeResult) :
  detectNATTypeFromAddresses servers addresses p v = Some r ->
  mappedAddresses r = addresses.
Proof.
  unfold detectNATTypeFromAddresses. destruct addresses as [|first rest];
    [discriminate|].
  destruct (negb (allSameIP (first :: rest) (ip first))); intros [= <-]; reflexivity.
Qed.

(** X20.  The evidence of a classification never mixes families, protocols
    or servers: when the detector for protocol [p] and family [v] runs on
    the answers of one probe per server, every address of its evidence has
    a port above zero and an IP that contains a colon exactly when [v] is
    IPv6, was announced to the probe of the server it names in a
    server-reflexive candidate in which "TCP" occurs exactly when [p] is
    TCP, and that server is at the same position in the roster as the
    probe. *)
Theorem evidence_matches_its_slot
    (servers : list StunServer) (connected : Connection -> bool)
    (p : Protocol) (v : IpVersion) (connectionResult : Connection)
    (streams : list (list Timed)) (r : NATTypeResult) (a : Address) :
  detectFamilyNATType servers connected (slot p v) p v connectionResult
    (map (fun evs => addresses (getMappedAddress evs)) streams) = Some r ->
  In a (mappedAddresses r) ->
  0 < port a
  /\ isIPv6 (ip a) = match v with IPv6 => true | IPv4 => false end
  /\ exists i s evs t c,
       nth_error servers i = Some s /\ nth_error streams i = Some evs
       /\ server a = name s
       /\ In (t, Ice (Candidate c)) evs /\ t < probeTimeout
       /\ parseCandidate c = Some {| ep_ip := ip a; ep_port := port a |}
       /\ JS.includes c "typ srflx" = true
       /\ JS.includes c "TCP" = match p with TCP => true | UDP => false end.
Proof.
  unfold detectFamilyNATType.
  destruct (Nat.eqb (length servers) 1).
  - destruct (connected connectionResult); [|discriminate].
    intros [= <-] [].
  - intros Hr Hin. rewrite (classifier_evidence _ _ _ _ _ Hr) in Hin.
    apply collect_origin in Hin.
    destruct Hin as (i & e & s & Hslot & Hs & ->). simpl.
    rewrite map_map in Hslot.
    rewrite nth_error_map in Hslot.
    destruct (nth_error streams i) as [evs|] eqn:Hevs; [|discriminate].
    simpl in Hslot. injection Hslot as Hslot.
    destruct (probe_slot_origin evs p v e Hslot)
      as (_ & Hport & Hfam & t & c & Hc & Ht & Hparse & Hsrflx & Htcp).
    split; [exact Hport|]. split; [exact Hfam|].
    exists i, s, evs, t, c. destruct e as [eip eport]. simpl in *.
    repeat split; assumption.
Qed.

Lemma evidence_matches_its_slot_witness :
  0 < port {| ip := "203.0.113.5"; port := 51000; server := "stun.l.google.com" |}
  /\ isIPv6 (ip {| ip := "203.0.113.5"; port := 51000; server := "stun.l.google.com" |})
     = false
  /\ exists i s evs t c,
       nth_error stunServers i = Some s
       /\ nth_error
            [ [(100, Ice (Candidate "candidate:1 1 UDP 1685987327 203.0.113.5 40000 typ srflx raddr 0.0.0.0 rport 0"));
               (300, Ice EndOfCandidates)];
              [(120, Ice (Candidate "candidate:1 1 UDP 1685987327 203.0.113.5 51000 typ srflx raddr 0.0.0.0 rport 0"));
               (310, Ice EndOfCandidates)] ] i = Some evs
       /\ server {| ip := "203.0.113.5"; port := 51000; server := "stun.l.google.com" |}
          = name s
       /\ In (t, Ice (Candidate c)) evs /\ t < probeTimeout
       /\ parseCandidate c
          = Some {| ep_ip := ip {| ip := "203.0.113.5"; port := 51000;
                                   server := "stun.l.google.com" |};
                    ep_port := port {| ip := "203.0.113.5"; port := 51000;
                                       server := "stun.l.google.com" |} |}
       /\ JS.includes c "typ srflx" = true
       /\ JS.includes c "TCP" = false.
Proof.
  eapply (evidence_matches_its_slot stunServers conn_udp UDP IPv4
            {| conn_udp := true; conn_tcp := false |}
            [ [(100, Ice (Candidate "candidate:1 1 UDP 1685987327 203.0.113.5 40000 typ srflx raddr 0.0.0.0 rport 0"));
               (300, Ice EndOfCandidates)];
              [(120, Ice (Candidate "candidate:1 1 UDP 1685987327 203.0.113.5 51000 typ srflx raddr 0.0.0.0 rport 0"));
               (310, Ice EndOfCandidates)] ]).
  - vm_compute. reflexivity.
  - simpl. right. left. reflexivity.
Defined.
